(** * The chat relay and the endpoints of [main.py]

    A shallow embedding of [main.py]:
    - the HTTP endpoints [chat_users] and [get_chat], which read the
      [chat_rooms] collection;
    - the websocket handler [websocket_endpoint], which reads and appends to
      [manager.authorized_connections] and calls the connection manager;
    - the account endpoints [registration] and [login];
    - the card endpoints [get_cards], [add_card], [delete_card],
      [update_card] and [get_stat].

    [main.py] imports the modules [socket_manager], [deps], [db] and
    [utils], whose code lies outside it.  The handler is therefore stated
    over an interface ([Collaborators]) of the functions it calls, and an
    instance of that interface is modelled from the specification where a
    statement needs one; the account and card endpoints take the functions
    of [utils] and of the driver as parameters. *)

From stdpp Require Import gmap strings list fin_maps.

#[local] Set Warnings "-register-all".
#[local] Open Scope string_scope.
#[local] Open Scope list_scope.

(** ** Python values *)

(** The values that [json.loads] and the document store hand to the code.
    Numbers are integers here: no statement below depends on a number. *)
Inductive json :=
| JNull
| JBool (b : bool)
| JNum (z : Z)
| JStr (s : string)
| JArr (l : list json)
| JObj (m : gmap string json).

(** A Python [dict] with string keys. *)
Abbreviation dict := (gmap string json).

(** [v == s] for a value [v] and a [str] [s]: only a string equals a string. *)
Definition eq_str (v : json) (s : string) : bool :=
  match v with
  | JStr t => bool_decide (t = s)
  | _ => false
  end.

(** ** Exceptions *)

Inductive exn :=
| KeyError (k : string)
| IndexError
| AttributeError
| JSONDecodeError
| InvalidToken
| RuntimeError
| WebSocketDisconnect.

#[global] Instance exn_eq_dec : EqDecision exn.
Proof. solve_decision. Defined.

(** A computation either returns or raises. *)
Inductive outcome (A : Type) :=
| Ok (a : A)
| Raise (e : exn).
Arguments Ok {A} a.
Arguments Raise {A} e.

#[global] Instance outcome_bind : MBind outcome := fun A B k c =>
  match c with
  | Ok a => k a
  | Raise e => Raise e
  end.

(** [for x in l: ... append (f x)], stopping at the first exception. *)
Fixpoint for_each {A B} (f : A -> outcome B) (l : list A) : outcome (list B) :=
  match l with
  | [] => Ok []
  | x :: l' => y ← f x; ys ← for_each f l'; Ok (y :: ys)
  end.

(** [d[k]] *)
Definition getitem (d : dict) (k : string) : outcome json :=
  match d !! k with
  | Some v => Ok v
  | None => Raise (KeyError k)
  end.

(** [del d[k]] *)
Definition delitem (k : string) (d : dict) : outcome dict :=
  match d !! k with
  | Some _ => Ok (delete k d)
  | None => Raise (KeyError k)
  end.

(** [l[-1]] *)
Definition last_item {A} (l : list A) : outcome A :=
  match last l with
  | Some x => Ok x
  | None => Raise IndexError
  end.

(** [l[0]] *)
Definition first_item {A} (l : list A) : outcome A :=
  match l with
  | x :: _ => Ok x
  | [] => Raise IndexError
  end.

(** ** The chat room collection *)

Module Store.

(** A document of [chat_rooms]: the member names and the messages, oldest
    first.  A message is a document with the keys ["from"], ["to"],
    ["message"] and ["time"] (the shape in the endpoint's examples). *)
Record room := {
  members : list string;
  messages : list dict
}.

(** The filter [{'members': {'$all': vals}}]: the array [members] holds
    every element of [vals]. *)
Definition members_all (vals : list string) (chat : room) : Prop :=
  Forall (fun v => v ∈ members chat) vals.

#[global] Instance members_all_dec vals chat : Decision (members_all vals chat).
Proof. unfold members_all. apply _. Defined.

(** [collection.find(filter)]: the matching documents, in stored order.  The
    projection [{'_id': 0}] of [chat_users] drops a field that no code here
    reads. *)
Definition find (vals : list string) (coll : list room) : list room :=
  filter (members_all vals) coll.

(** [collection.find_one(filter)]: the first matching document or [None]. *)
Definition find_one (vals : list string) (coll : list room) : option room :=
  head (find vals coll).

End Store.
Export Store.

(** ** The chat endpoints *)

Record response := {
  status_code : Z;
  content : json
}.

Definition JSONResponse (code : Z) (body : json) : response :=
  {| status_code := code; content := body |}.

(** The body of the loop of [chat_users], for one room. *)
Definition chat_users_entry (user : string) (chat : room) : outcome json :=
  last_message ← last_item (messages chat);
  from ← getitem last_message "from";
  let last_message := <["is_myself" := JBool (eq_str from user)]> last_message in
  last_message ← delitem "from" last_message;
  last_message ← delitem "to" last_message;
  username ← first_item (filter (fun el => el ≠ user) (members chat));
  Ok (JObj (<["username" := JStr username]>
            (<["last_message" := JObj last_message]> ∅))).

(** [GET /api/chat_users] for the authenticated [user]. *)
Definition chat_users (chat_rooms : list room) (user : string) : outcome (list json) :=
  let chats := find [user] chat_rooms in
  for_each (chat_users_entry user) chats.

Section GetChat.

(** [utils.get_messages_from_chat], defined outside [main.py]: the messages
    of a room as the endpoint returns them. *)
Variable get_messages_from_chat : room -> json.

(** The room lookup of [get_chat]. *)
Definition get_chat_room (chat_rooms : list room) (user2 user : string) : option room :=
  find_one [user; user2] chat_rooms.

(** [GET /api/get_chat/{user2}] for the authenticated [user]. *)
Definition get_chat (chat_rooms : list room) (user2 user : string) : response :=
  match get_chat_room chat_rooms user2 user with
  | None => JSONResponse 200 (JArr [])
  | Some cursor => JSONResponse 200 (get_messages_from_chat cursor)
  end.

End GetChat.

(** ** The data model of the chat rooms *)

(** A room as the data model has it: exactly two members, which differ, and
    messages that carry their author and their addressee. *)
Definition well_formed (chat : room) : Prop :=
  (∃ a b, a ≠ b ∧ members chat = [a; b]) ∧
  Forall (fun m : dict => is_Some (m !! "from") ∧ is_Some (m !! "to")) (messages chat).

(** What the room listing is to say of one room of [user]: the first member
    that is not [user], and the most recent message without its ['from'] and
    ['to'], flagged with whether its ['from'] is [user]. *)
Definition room_listing (user : string) (chat : room) (item : json) : Prop :=
  ∃ (peer : string) (pre post : list string) (msg view : dict) (mine : bool),
    members chat = pre ++ peer :: post ∧ (∀ el, el ∈ pre → el = user) ∧
    peer ≠ user ∧
    last (messages chat) = Some msg ∧
    (mine = true ↔ msg !! "from" = Some (JStr user)) ∧
    view !! "is_myself" = Some (JBool mine) ∧
    view !! "from" = None ∧ view !! "to" = None ∧
    (∀ k, k ≠ "is_myself" → k ≠ "from" → k ≠ "to" → view !! k = msg !! k) ∧
    item = JObj (<["username" := JStr peer]> (<["last_message" := JObj view]> ∅)).

(** What [chat_users] needs of a room of [user] to list it: a last message
    with an author and an addressee, and a member other than [user]. *)
Definition listable (user : string) (chat : room) : Prop :=
  (∃ msg, last (messages chat) = Some msg ∧
          is_Some (msg !! "from") ∧ is_Some (msg !! "to")) ∧
  (∃ peer, peer ∈ members chat ∧ peer ≠ user).

(** ** The connection manager and the websocket handler *)

(** A websocket object.  Starlette compares connections by identity, so a
    handle is a name. *)
Definition handle := nat.

(** An element of [manager.authorized_connections]:
    [{'username': user, 'websocket': websocket}]. *)
Record entry := {
  username : string;
  websocket : handle
}.

(** The shared state: the connection manager and the [chat_rooms]
    collection. *)
Record state := {
  active_connections : list handle;
  authorized_connections : list entry;
  chat_rooms : list room
}.

(** What the handler does that is visible from outside: its calls to the
    connection manager, the texts it sends on its own connection, and the
    deliveries made by the manager on its behalf. *)
Inductive event :=
| Call_connect (ws : handle)
| Call_disconnect (ws : handle)
| Call_send_personal_message (ws : handle) (receiver sender message : json)
| Send_text (ws : handle) (text : string)
| Push (ws : handle) (message : json).

(** The functions of [socket_manager], [deps] and of the websocket that the
    handler calls.  Each of them may raise: [decode_token] returns a name or
    raises; [send_text] returns or raises; [connect], [disconnect] and
    [send_personal_message] give the state they leave and the exception they
    raised, if any, [send_personal_message] also the deliveries it made,
    each to a connection. *)
Class Collaborators := {
  decode_token : json -> outcome string;
  send_text : handle -> string -> state -> option exn;
  connect : handle -> state -> state * option exn;
  disconnect : handle -> state -> state * option exn;
  send_personal_message :
    json -> json -> json -> state -> state * list (handle * json) * option exn
}.

(** How the handler task stands after the frames received so far. *)
Inductive status :=
| Receiving                (* waiting in [receive_json] *)
| Returned                 (* left through [except WebSocketDisconnect] *)
| Propagated (e : exn).    (* ended by an exception that is not caught *)

(** The connection has no element in [manager.authorized_connections]. *)
Definition no_entry (ws : handle) (s : state) : Prop :=
  ∀ d, d ∈ authorized_connections s → websocket d ≠ ws.


Section Handler.

Context `{Collaborators}.

(** [any(d['websocket'] == websocket for d in manager.authorized_connections)] *)
Definition is_authorized (ws : handle) (s : state) : bool :=
  existsb (fun d => bool_decide (websocket d = ws)) (authorized_connections s).

(** [manager.authorized_connections.append(e)] *)
Definition append_authorized (e : entry) (s : state) : state :=
  {| active_connections := active_connections s;
     authorized_connections := authorized_connections s ++ [e];
     chat_rooms := chat_rooms s |}.

(** [await websocket.send_text(text)]: the state, the text when it was sent,
    and the exception when the send raised. *)
Definition sent (ws : handle) (text : string) (s : state)
  : state * list event * option exn :=
  match send_text ws text s with
  | None => (s, [Send_text ws text], None)
  | Some e => (s, [], Some e)
  end.

(** The body of the [while True] loop, after [receive_json] returned [data]:
    the state it leaves, what it did, and the exception that ended it, if
    any. *)
Definition on_frame (ws : handle) (data : json) (s : state)
  : state * list event * option exn :=
  match data with
  | JObj data =>
      if bool_decide ("token" ∈ dom data) then
        match token ← getitem data "token"; decode_token token with
        | Ok user =>
            sent ws "successful authorization"
              (append_authorized {| username := user; websocket := ws |} s)
        | Raise e => (s, [], Some e)
        end
      else if negb (is_authorized ws s) then
        sent ws "websocket not authorized" s
      else
        match receiver ← getitem data "receiver";
              sender ← getitem data "sender";
              message ← getitem data "message";
              Ok (receiver, sender, message) with
        | Ok (receiver, sender, message) =>
            let '(s', pushes, raised) :=
              send_personal_message receiver sender message s in
            (s', Call_send_personal_message ws receiver sender message
                 :: map (fun p => Push p.1 p.2) pushes, raised)
        | Raise e => (s, [], Some e)
        end
  | _ => (s, [], Some AttributeError)   (* [data.keys()] on a value that is no dict *)
  end.

(** One turn of the loop: [receive_json], which returns a frame or raises,
    and the body. *)
Definition turn (ws : handle) (received : outcome json) (s : state)
  : state * list event * option exn :=
  match received with
  | Ok data => on_frame ws data s
  | Raise e => (s, [], Some e)
  end.

(** The [try: while True: ... except WebSocketDisconnect: ...] block over the
    outcomes of the successive [receive_json] calls. *)
Fixpoint loop (ws : handle) (inputs : list (outcome json)) (s : state)
  : state * list event * status :=
  match inputs with
  | [] => (s, [], Receiving)
  | received :: inputs' =>
      let '(s', evs, raised) := turn ws received s in
      match raised with
      | None =>
          let '(s'', evs', st) := loop ws inputs' s' in
          (s'', evs ++ evs', st)
      | Some WebSocketDisconnect =>
          let '(s'', raised') := disconnect ws s' in
          (s'', evs ++ [Call_disconnect ws],
           match raised' with
           | None => Returned
           | Some e => Propagated e
           end)
      | Some e => (s', evs, Propagated e)
      end
  end.

(** [websocket_endpoint(websocket)] *)
Definition websocket_endpoint (ws : handle) (inputs : list (outcome json)) (s : state)
  : state * list event * status :=
  let '(s0, raised) := connect ws s in
  match raised with
  | Some e => (s0, [Call_connect ws], Propagated e)
  | None =>
      let '(s', evs, st) := loop ws inputs s0 in
      (s', Call_connect ws :: evs, st)
  end.

End Handler.

(** ** The absent collaborators, after the specification *)

Module Spec.

(** Modelled from the spec: [Registry.register] (section 4.1), for
    [ConnectionManager.connect] of [socket_manager]: the handle is added in
    the unauthenticated state. *)
Definition register (ws : handle) (s : state) : state :=
  {| active_connections := active_connections s ++ [ws];
     authorized_connections := authorized_connections s;
     chat_rooms := chat_rooms s |}.

(** Modelled from the spec: [Registry.remove] (section 4.1), for
    [ConnectionManager.disconnect] of [socket_manager]: all registry state of
    the handle is deleted. *)
Definition remove (ws : handle) (s : state) : state :=
  {| active_connections := filter (fun h => h ≠ ws) (active_connections s);
     authorized_connections :=
       filter (fun d => websocket d ≠ ws) (authorized_connections s);
     chat_rooms := chat_rooms s |}.

(** Modelled from the spec: [Registry.find_live_connection] (section 4.1): a
    connection authorized as the identity, here the first one of the linear
    scan that section 9 ascribes to the original. *)
Definition find_live_connection (identity : string) (s : state) : option handle :=
  websocket <$> head (filter (fun d => username d = identity) (authorized_connections s)).

(** Modelled from the spec: the Chat Store's [find_room], [create_room] and
    [append_message] (section 4.4), for [create_chat] of [db]: the message is
    appended to the first room of the unordered pair, and a room is created
    when there is none. *)
Fixpoint append_message (a b : string) (msg : dict) (rooms : list room) : list room :=
  match rooms with
  | [] => [ {| members := [a; b]; messages := [msg] |} ]
  | chat :: rooms' =>
      if decide (members_all [a; b] chat)
      then {| members := members chat; messages := messages chat ++ [msg] |} :: rooms'
      else chat :: append_message a b msg rooms'
  end.

(** Modelled from the spec: a stored Message (section 3), with the keys of
    the endpoints' examples in [main.py]. *)
Definition stored_message (now : Z) (receiver sender : string) (text : json) : dict :=
  <["from" := JStr sender]> (<["to" := JStr receiver]>
  (<["message" := text]> (<["time" := JNum now]> ∅))).

(** Modelled from the spec: [route] (section 4.3, steps 1 to 3), for
    [ConnectionManager.send_personal_message] of [socket_manager]: the text is
    pushed to a live connection of the receiver when there is one and,
    regardless of the delivery, the message is appended to the room of the
    pair (step 3; sections 8 and 9 say the same of the original).  A
    parenthesis of step 2 says that a message that was pushed is not also
    stored; the code that would decide between the two is in
    [socket_manager].  The theorems on the handler hold for every instance
    of [Collaborators]; [route] serves the sample runs only. *)
Definition route (now : Z) (receiver sender : string) (text : json) (s : state)
  : state * list (handle * json) :=
  let pushes :=
    match find_live_connection receiver s with
    | Some h => [(h, text)]
    | None => []
    end in
  ({| active_connections := active_connections s;
      authorized_connections := authorized_connections s;
      chat_rooms :=
        append_message sender receiver (stored_message now receiver sender text)
          (chat_rooms s) |},
   pushes).

(** Modelled from the spec: the Token Verifier (section 2), for
    [decode_token] of [deps]: the identity a token encodes, or the failure
    [InvalidToken].  [verify] stands for the signature and expiry check. *)
Definition verifier (verify : string -> option string) (token : json) : outcome string :=
  match token with
  | JStr t =>
      match verify t with
      | Some user => Ok user
      | None => Raise InvalidToken
      end
  | _ => Raise InvalidToken
  end.

(** Modelled from the spec: the collaborators of the handler put together;
    the token verifier raises on a token it refuses, the manager and the
    sends raise nothing.  Identities are strings (section 3); the
    specification is silent on a send whose receiver or sender is no string,
    which is left without effect here. *)
Definition collaborators (verify : string -> option string) (now : Z)
  : Collaborators := {|
  decode_token := verifier verify;
  send_text _ _ _ := None;
  connect ws s := (register ws s, None);
  disconnect ws s := (remove ws s, None);
  send_personal_message receiver sender message s :=
    match receiver, sender with
    | JStr r, JStr sd => (route now r sd message s, None)
    | _, _ => (s, [], None)
    end
|}.

End Spec.

(** ** Sample data *)

Module Sample.

(** Tokens of three users; every other token is invalid. *)
Definition verify (t : string) : option string :=
  if bool_decide (t = "t-alice") then Some "alice"
  else if bool_decide (t = "t-bob") then Some "bob"
  else if bool_decide (t = "t-mallory") then Some "mallory"
  else None.

Definition now : Z := 1668698229591.

Definition collaborators : Collaborators := Spec.collaborators verify now.


Definition token_data (t : string) : dict := <["token" := JStr t]> ∅.

Definition token_frame (t : string) : json := JObj (token_data t).

Definition send_data (receiver sender message : string) : dict :=
  <["receiver" := JStr receiver]> (<["sender" := JStr sender]>
  (<["message" := JStr message]> ∅)).

Definition send_frame (receiver sender message : string) : json :=
  JObj (send_data receiver sender message).

Definition empty_state : state :=
  {| active_connections := []; authorized_connections := []; chat_rooms := [] |}.

Definition message (from to text : string) : dict :=
  Spec.stored_message now to from (JStr text).

(** Two connections, the first authorized as mallory and the second as
    bob, and no chat room. *)
Definition mallory_and_bob : state :=
  {| active_connections := [1; 2];
     authorized_connections :=
       [ {| username := "mallory"; websocket := 1 |};
         {| username := "bob"; websocket := 2 |} ];
     chat_rooms := [] |}.

End Sample.

(** ** Collections of typed documents *)

Module Mongo.

Section Collection.

Context {D : Type} (P : D -> Prop) `{!∀ d, Decision (P d)}.

(** [collection.find_one(filter)]: the first document that matches. *)
Definition find_one (coll : list D) : option D :=
  head (filter P coll).

(** [collection.update_one(filter, update)]: the first document that
    matches is updated; without a match nothing changes. *)
Fixpoint update_one (f : D -> D) (coll : list D) : list D :=
  match coll with
  | [] => []
  | d :: coll' =>
      if decide (P d) then f d :: coll' else d :: update_one f coll'
  end.

End Collection.

(** [collection.insert_one(document)] *)
Definition insert_one {D : Type} (d : D) (coll : list D) : list D :=
  coll ++ [d].

(** The integers BSON stores: beyond eight bytes the driver raises
    [OverflowError] when it encodes the document. *)
Definition bson_int (z : Z) : bool :=
  bool_decide (- 2 ^ 63 ≤ z < 2 ^ 63)%Z.

End Mongo.

(** [{'message': text}] *)
Definition message_body (text : string) : json :=
  JObj (<["message" := JStr text]> ∅).

(** ** The account endpoints *)

Module Auth.

(** The request model [AuthUser]; a document of [users] is [user.dict()]
    with the password replaced by its hash, and has the same two fields. *)
Record AuthUser := {
  username : string;
  password : string
}.

(** The constraints of the model, [Field(max_length=20, min_length=6)] on
    the username and [Field(max_length=30, min_length=6)] on the password.
    The framework answers 422 to a request that does not meet them and does
    not call the endpoint, so [registration] and [login] receive no other
    [AuthUser]. *)
Definition valid (user : AuthUser) : Prop :=
  (6 ≤ String.length (username user) ≤ 20)%nat ∧
  (6 ≤ String.length (password user) ≤ 30)%nat.

(** [users.find_one({'username': name})] *)
Definition find_user (name : string) (users : list AuthUser) : option AuthUser :=
  Mongo.find_one (fun d => username d = name) users.

Section Endpoints.

(** The functions of [utils], defined outside [main.py].  A hash depends on
    the salt drawn by the call, a token on the time of the call. *)
Context {salt instant : Type}.
Variable get_hashed_password : salt -> string -> string.
Variable verify_password : string -> string -> bool.
Variable create_access_token : instant -> string -> string.

(** [POST /api/registration] *)
Definition registration (drawn : salt) (user : AuthUser) (users : list AuthUser)
  : response * list AuthUser :=
  match find_user (username user) users with
  | Some _ => (JSONResponse 409 (message_body "nickname is taken"), users)
  | None =>
      let user :=
        {| username := username user;
           password := get_hashed_password drawn (password user) |} in
      (JSONResponse 200 (message_body "registration completed successfully"),
       Mongo.insert_one user users)
  end.

(** [POST /api/login] *)
Definition login (now : instant) (user : AuthUser) (users : list AuthUser) : response :=
  match find_user (username user) users with
  | None => JSONResponse 404 (message_body "user not found")
  | Some data_user =>
      if negb (verify_password (password user) (password data_user))
      then JSONResponse 401 (message_body "wrong password")
      else JSONResponse 200
             (JObj (<["access_token" :=
                        JStr (create_access_token now (username user))]> ∅))
  end.

End Endpoints.

End Auth.

(** ** The card endpoints *)

Module Cards.

(** An [ObjectId], as the number its twelve bytes spell. *)
Definition oid := N.

(** A [datetime]; the endpoints below store it and do not compute with it. *)
Definition datetime := Z.

(** The request model [Card]. *)
Module Card.
Record t := {
  title : string;
  date : Z;
  counter : Z
}.
End Card.

(** [card.dict(exclude_unset=True)] of the request model [UpdateCard]: the
    optional fields are absent, or present with [None] or a value; the date
    is required. *)
Module UpdateCard.
Record t := {
  title : option (option string);
  counter : option (option Z);
  date : Z
}.
End UpdateCard.

(** A document of [cards].  They are inserted by [add_card] only, which
    fixes the fields; [update_card] can set title and counter to [None]. *)
Module Doc.
Record t := {
  _id : oid;
  title : option string;
  date : Z;
  counter : option Z;
  user : string;
  is_deleted : bool;
  viewed : datetime
}.
End Doc.

(** The dictionary that [add_card] and [update_card] return: the document
    without ['_id'], ['is_deleted'] and ['viewed'], with ['id']. *)
Module View.
Record t := {
  id : string;
  title : option string;
  date : Z;
  counter : option Z;
  user : string
}.
End View.

(** The values in a document of [stats]: its [ObjectId], the card's id as a
    string, and the counters. *)
Inductive value :=
| VOid (o : oid)
| VStr (s : string)
| VInt (z : Z)
| VNone.

#[global] Instance value_eq_dec : EqDecision value.
Proof. solve_decision. Defined.

(** An element of the list that [get_stat] returns:
    [{'date': key, 'counter': value}]. *)
Module Item.
Record t := {
  date : string;
  counter : value
}.
End Item.

(** A document of [stats]: a dictionary, whose order [get_stat] returns. *)
Definition stat := list (string * value).

Inductive error :=
| KeyError (k : string)
| TypeError
| OverflowError.

Inductive result (A : Type) :=
| Return (a : A)
| Throw (e : error).
Arguments Return {A} a.
Arguments Throw {A} e.

#[global] Instance result_bind : MBind result := fun A B k c =>
  match c with
  | Return a => k a
  | Throw e => Throw e
  end.

(** [d.get(k)] on a dictionary kept in order. *)
Fixpoint field (k : string) (d : stat) : option value :=
  match d with
  | [] => None
  | (k', v) :: d' => if decide (k' = k) then Some v else field k d'
  end.

(** [del d[k]] *)
Fixpoint del (k : string) (d : stat) : result stat :=
  match d with
  | [] => Throw (KeyError k)
  | (k', v) :: d' =>
      if decide (k' = k) then Return d'
      else d'' ← del k d'; Return ((k', v) :: d'')
  end.

Record db := {
  users : list Auth.AuthUser;
  cards : list Doc.t;
  stats : list stat
}.

Definition with_cards (cards' : list Doc.t) (d : db) : db :=
  {| users := users d; cards := cards'; stats := stats d |}.

(** [users.find_one({'username': user}) is None] *)
Definition unknown_user (user : string) (d : db) : bool :=
  bool_decide (Auth.find_user user (users d) = None).

Definition user_not_found : response :=
  JSONResponse 404 (message_body "user not found").

Definition non_existent_card : response :=
  JSONResponse 404 (message_body "non-existent card").

(** The filter [{'_id': o, 'user': user}]. *)
Definition owned (o : oid) (user : string) (card : Doc.t) : Prop :=
  Doc._id card = o ∧ Doc.user card = user.

(** The update [{'$set': {'is_deleted': True}}]. *)
Definition set_deleted (card : Doc.t) : Doc.t :=
  {| Doc._id := Doc._id card; Doc.title := Doc.title card;
     Doc.date := Doc.date card; Doc.counter := Doc.counter card;
     Doc.user := Doc.user card; Doc.is_deleted := true;
     Doc.viewed := Doc.viewed card |}.

(** The update [{'$set': card}] for the fields that were entered. *)
Definition set_fields (card : UpdateCard.t) (doc : Doc.t) : Doc.t :=
  {| Doc._id := Doc._id doc;
     Doc.title := default (Doc.title doc) (UpdateCard.title card);
     Doc.date := UpdateCard.date card;
     Doc.counter := default (Doc.counter doc) (UpdateCard.counter card);
     Doc.user := Doc.user doc; Doc.is_deleted := Doc.is_deleted doc;
     Doc.viewed := Doc.viewed doc |}.

(** Whether the driver can encode the integers of the update. *)
Definition encodable (card : UpdateCard.t) : bool :=
  Mongo.bson_int (UpdateCard.date card) &&
  match UpdateCard.counter card with
  | Some (Some z) => Mongo.bson_int z
  | _ => true
  end.

Section Endpoints.

(** [ObjectId(s)], which raises [InvalidId] ([None] here) on a string that is
    no id, and [str(o)]. *)
Variable ObjectId : string -> option oid.
Variable str : oid -> string.

(** [card['id'] = str(card['_id'])] and the [del] that follows. *)
Definition view (card : Doc.t) : View.t :=
  {| View.id := str (Doc._id card); View.title := Doc.title card;
     View.date := Doc.date card; View.counter := Doc.counter card;
     View.user := Doc.user card |}.

(** [POST /api/add_card], at the time [now]; [new_id] and [stat_id] are the
    ids the driver gives the two inserted documents. *)
Definition add_card (now : datetime) (new_id stat_id : oid)
    (card : Card.t) (user : string) (d : db)
  : result (response + View.t) * db :=
  if unknown_user user d then (Return (inl user_not_found), d)
  else if negb (Mongo.bson_int (Card.date card) && Mongo.bson_int (Card.counter card))
  then (Throw OverflowError, d)
  else
    let doc :=
      {| Doc._id := new_id; Doc.title := Some (Card.title card);
         Doc.date := Card.date card; Doc.counter := Some (Card.counter card);
         Doc.user := user; Doc.is_deleted := false; Doc.viewed := now |} in
    let stat := [("_id", VOid stat_id); ("card", VStr (str new_id))] in
    (Return (inr (view doc)),
     {| users := users d;
        cards := Mongo.insert_one doc (cards d);
        stats := Mongo.insert_one stat (stats d) |}).

(** [DELETE /api/delete_card/{card_id}]; a dictionary that is returned is
    sent with status 200. *)
Definition delete_card (card_id : string) (user : string) (d : db) : response * db :=
  if unknown_user user d then (user_not_found, d)
  else
    match ObjectId card_id with
    | None => (non_existent_card, d)     (* [InvalidId], caught by [except:] *)
    | Some o =>
        (JSONResponse 200 (message_body "deleted"),
         with_cards (Mongo.update_one (owned o user) set_deleted (cards d)) d)
    end.

(** [PUT /api/update_card/{card_id}] *)
Definition update_card (card_id : string) (card : UpdateCard.t) (user : string) (d : db)
  : result (response + View.t) * db :=
  if unknown_user user d then (Return (inl user_not_found), d)
  else
    match ObjectId card_id with
    | None => (Return (inl non_existent_card), d)
    | Some o =>
        if negb (encodable card)
        then (Return (inl non_existent_card), d)   (* [OverflowError], caught *)
        else
          let d' :=
            with_cards (Mongo.update_one (owned o user) (set_fields card) (cards d)) d in
          match Mongo.find_one (fun c => Doc._id c = o) (cards d') with
          | None => (Throw TypeError, d')          (* [new_card] is [None] *)
          | Some new_card => (Return (inr (view new_card)), d')
          end
    end.

(** [stats.find_one({'card': card_id})] *)
Definition find_stat (card_id : string) (d : db) : option stat :=
  Mongo.find_one (fun s => field "card" s = Some (VStr card_id)) (stats d).

(** [GET /api/get_stat/{card_id}] *)
Definition get_stat (card_id : string) (d : db)
  : result (response + list Item.t) :=
  match find_stat card_id d with
  | None => Return (inl non_existent_card)
  | Some stat =>
      stat ← del "_id" stat;
      stat ← del "card" stat;
      Return (inr (map (fun '(key, value) =>
                          {| Item.date := key; Item.counter := value |}) stat))
  end.

End Endpoints.

(** *** The listing of the cards *)

(** The filter [{'is_deleted': False, 'user': user}]. *)
Definition listed (user : string) (card : Doc.t) : Prop :=
  Doc.is_deleted card = false ∧ Doc.user card = user.

(** The updates [{'$set': {'counter': 0}}] and [{'$set': {'viewed': now}}]. *)
Definition set_counter (z : Z) (card : Doc.t) : Doc.t :=
  {| Doc._id := Doc._id card; Doc.title := Doc.title card;
     Doc.date := Doc.date card; Doc.counter := Some z;
     Doc.user := Doc.user card; Doc.is_deleted := Doc.is_deleted card;
     Doc.viewed := Doc.viewed card |}.

Definition set_viewed (now : datetime) (card : Doc.t) : Doc.t :=
  {| Doc._id := Doc._id card; Doc.title := Doc.title card;
     Doc.date := Doc.date card; Doc.counter := Doc.counter card;
     Doc.user := Doc.user card; Doc.is_deleted := Doc.is_deleted card;
     Doc.viewed := now |}.

(** What the updates of [get_cards] leave of a card: all but its counter and
    the time of its last view. *)
Definition same_card (card card' : Doc.t) : Prop :=
  Doc._id card' = Doc._id card ∧ Doc.title card' = Doc.title card ∧
  Doc.date card' = Doc.date card ∧ Doc.user card' = Doc.user card ∧
  Doc.is_deleted card' = Doc.is_deleted card.

(** A counter as a value of a document of [stats]. *)
Definition counter_value (counter : option Z) : value :=
  match counter with
  | Some z => VInt z
  | None => VNone
  end.

(** [{'$set': {k: v}}] on one document: the field is replaced where it
    stands, or added at the end. *)
Fixpoint set_field (k : string) (v : value) (s : stat) : stat :=
  match s with
  | [] => [(k, v)]
  | (k', v') :: s' =>
      if decide (k' = k) then (k, v) :: s' else (k', v') :: set_field k v s'
  end.

(** [stats.update_one({'card': card_id}, {'$set': updates})] *)
Definition set_stat (card_id : string) (updates : list (string * value))
    (stats : list stat) : list stat :=
  Mongo.update_one (fun s => field "card" s = Some (VStr card_id))
    (fun s => foldl (fun s p => set_field p.1 p.2 s) s updates) stats.

Section GetCards.

Variable str : oid -> string.

(** The operations on [datetime] that [get_cards] uses:
    [int((a - b).total_seconds() // 3600)], [a.day], [(a - b).days],
    [a.strftime('%Y-%m-%d')] and [a + timedelta(days=i)]. *)
Variable hours_between : datetime -> datetime -> Z.
Variable day : datetime -> Z.
Variable days_between : datetime -> datetime -> Z.
Variable date_string : datetime -> string.
Variable plus_days : datetime -> Z -> datetime.

(** [.sort("date", pymongo.DESCENDING)], which leaves the order of cards of
    one date to the server. *)
Variable sort_date_descending : list Doc.t -> list Doc.t.

(** The time that [datetime.now] gives in each turn of the loop. *)
Variable clock : nat -> datetime.

(** Whether the statistics of the card roll over at the time [now]. *)
Definition rolls_over (now : datetime) (card : Doc.t) : bool :=
  bool_decide (hours_between now (Doc.viewed card) > 24)%Z
  || negb (bool_decide (day now = day (Doc.viewed card))).

(** The days without a view, [range(1, delta.days)], each with counter 0. *)
Definition days_without_view (now : datetime) (card : Doc.t) : list (string * value) :=
  map (fun i => (date_string (plus_days (Doc.viewed card) i), VInt 0))
      (seqZ 1 (days_between now (Doc.viewed card) - 1)).

(** One turn of the loop of [get_cards], for a card of the cursor. *)
Definition view_card (now : datetime) (card : Doc.t) (d : db) : View.t * db :=
  let card_id := str (Doc._id card) in
  let this := fun c => Doc._id c = Doc._id card in
  let d :=
    if rolls_over now card then
      let stats1 :=
        set_stat card_id
          [(date_string (Doc.viewed card), counter_value (Doc.counter card))]
          (stats d) in
      let stats2 :=
        if bool_decide (days_between now (Doc.viewed card) > 1)%Z
        then set_stat card_id (days_without_view now card) stats1
        else stats1 in
      {| users := users d;
         cards := Mongo.update_one this (set_counter 0) (cards d);
         stats := stats2 |}
    else d in
  (view str (if rolls_over now card then set_counter 0 card else card),
   with_cards (Mongo.update_one this (set_viewed now) (cards d)) d).

(** The loop of [get_cards] over the cursor, from its [i]-th turn on. *)
Fixpoint view_cards (i : nat) (cursor : list Doc.t) (d : db) : list View.t * db :=
  match cursor with
  | [] => ([], d)
  | card :: cursor' =>
      let '(v, d1) := view_card (clock i) card d in
      let '(vs, d2) := view_cards (S i) cursor' d1 in
      (v :: vs, d2)
  end.

(** [cards.find({'is_deleted': False, 'user': user}).sort(...)] *)
Definition cursor_of (user : string) (d : db) : list Doc.t :=
  sort_date_descending (filter (listed user) (cards d)).

(** [GET /api/get_cards] *)
Definition get_cards (user : string) (d : db) : (response + list View.t) * db :=
  if unknown_user user d then (inl user_not_found, d)
  else
    let '(result, d') := view_cards 0 (cursor_of user d) d in
    (inr result, d').

End GetCards.

End Cards.

(** ** Sample data for the account and card endpoints *)

Module Fixture.

(** A stand-in for the hashing of [utils]: the salt is kept in front of the
    password. *)
Definition get_hashed_password (drawn : string) (password : string) : string :=
  drawn +:+ "$" +:+ password.

Definition verify_password (password hashed : string) : bool :=
  bool_decide (hashed = "salt$" +:+ password).

Definition create_access_token (now : Z) (name : string) : string :=
  "token-" +:+ name.

Definition nikita : Auth.AuthUser :=
  {| Auth.username := "Nikita"; Auth.password := "salt$secret" |}.

Definition viktor : Auth.AuthUser :=
  {| Auth.username := "Viktor"; Auth.password := "salt$hidden" |}.

(** Two ids and their strings. *)
Definition ObjectId (s : string) : option Cards.oid :=
  if bool_decide (s = "00000000000000000000000a") then Some 10%N
  else if bool_decide (s = "00000000000000000000000b") then Some 11%N
  else None.

Definition str (o : Cards.oid) : string :=
  if bool_decide (o = 10%N) then "00000000000000000000000a"
  else "00000000000000000000000b".

Definition card (o : Cards.oid) (owner : string) : Cards.Doc.t :=
  {| Cards.Doc._id := o; Cards.Doc.title := Some "word";
     Cards.Doc.date := 1668698229%Z; Cards.Doc.counter := Some 3%Z;
     Cards.Doc.user := owner; Cards.Doc.is_deleted := false;
     Cards.Doc.viewed := 0%Z |}.

Definition stat_of (o : Cards.oid) : Cards.stat :=
  [ ("_id", Cards.VOid 77%N); ("card", Cards.VStr (str o));
    ("2022-11-17", Cards.VInt 3%Z); ("2022-11-18", Cards.VInt 0%Z) ].

(** Nikita owns the card [10] and Viktor the card [11]. *)
Definition db : Cards.db :=
  {| Cards.users := [nikita; viktor];
     Cards.cards := [card 10%N "Nikita"; card 11%N "Viktor"];
     Cards.stats := [stat_of 10%N] |}.

(** A clock in hours, with days of twenty-four hours. *)
Definition hours_between (a b : Cards.datetime) : Z := (a - b)%Z.

Definition day (a : Cards.datetime) : Z := (a `div` 24)%Z.

Definition days_between (a b : Cards.datetime) : Z := ((a - b) `div` 24)%Z.

Definition date_string (a : Cards.datetime) : string :=
  if bool_decide (a `div` 24 = 0)%Z then "2022-11-17" else "2022-11-18".

Definition plus_days (a : Cards.datetime) (i : Z) : Cards.datetime := (a + 24 * i)%Z.

Definition new_date : Cards.UpdateCard.t :=
  {| Cards.UpdateCard.title := None; Cards.UpdateCard.counter := Some (Some 0%Z);
     Cards.UpdateCard.date := 1668700000%Z |}.

Definition new_title : Cards.UpdateCard.t :=
  {| Cards.UpdateCard.title := Some (Some "mot"); Cards.UpdateCard.counter := None;
     Cards.UpdateCard.date := 1668700000%Z |}.

(** Nikita's card, last viewed at hour 20 of day 0. *)
Definition viewed_late : Cards.db :=
  {| Cards.users := [nikita];
     Cards.cards :=
       [ {| Cards.Doc._id := 10%N; Cards.Doc.title := Some "word";
            Cards.Doc.date := 1668698229%Z; Cards.Doc.counter := Some 3%Z;
            Cards.Doc.user := "Nikita"; Cards.Doc.is_deleted := false;
            Cards.Doc.viewed := 20%Z |} ];
     Cards.stats := [stat_of 10%N] |}.

End Fixture.

(** * Properties *)

(** ** Room lookup and the chat endpoints *)

Section StoreFacts.

Implicit Types (chat : room) (db : list room) (user : string).

Lemma members_all_swap a b chat :
  members_all [a; b] chat ↔ members_all [b; a] chat.
Proof.
  unfold members_all. rewrite !Forall_cons, !Forall_nil. tauto.
Qed.

Lemma find_swap a b db : find [a; b] db = find [b; a] db.
Proof. apply list_filter_iff. intros chat. apply members_all_swap. Qed.

Lemma members_all_one user chat :
  members_all [user] chat ↔ user ∈ members chat.
Proof.
  unfold members_all. rewrite Forall_cons, Forall_nil. tauto.
Qed.

Lemma find_one_None vals db :
  (∀ chat, chat ∈ db → ¬ members_all vals chat) → find_one vals db = None.
Proof.
  intros Hno. unfold find_one. apply head_None.
  destruct (find vals db) as [|chat l] eqn:E; [done|].
  assert (Hin : chat ∈ find vals db) by (rewrite E; left).
  apply list_elem_of_filter in Hin as [Hm Hin]. by destruct (Hno chat).
Qed.

End StoreFacts.

(** C7. Looking up the chat room of two distinct identities gives the same
    room whichever of the two is the requester and whichever the path
    parameter of [get_chat]. *)
Theorem get_chat_room_commutative (db : list room) (a b : string) :
  a ≠ b → get_chat_room db a b = get_chat_room db b a.
Proof.
  intros _. unfold get_chat_room, find_one. by rewrite find_swap.
Qed.

Lemma get_chat_room_commutative_witness :
  let db := [ {| members := ["carol"; "bob"]; messages := [] |};
              {| members := ["bob"; "alice"]; messages := [∅] |} ] in
  "alice" ≠ "bob" ∧
  get_chat_room db "alice" "bob" = get_chat_room db "bob" "alice" ∧
  get_chat_room db "alice" "bob" = Some {| members := ["bob"; "alice"]; messages := [∅] |}.
Proof.
  split; [done|]. split; [|by vm_compute].
  apply (get_chat_room_commutative _ "alice" "bob"). done.
Defined.

(** C9. When no room holds both the requester and [user2], [get_chat]
    answers with status 200 and the empty list. *)
Theorem get_chat_no_room (get_messages_from_chat : room → json)
    (db : list room) (user2 user : string) :
  (∀ chat, chat ∈ db → ¬ (user ∈ members chat ∧ user2 ∈ members chat)) →
  get_chat get_messages_from_chat db user2 user = JSONResponse 200 (JArr []).
Proof.
  intros Hno. unfold get_chat, get_chat_room.
  rewrite find_one_None; [done|].
  intros chat Hin Hall. apply (Hno chat Hin).
  unfold members_all in Hall. rewrite !Forall_cons in Hall. tauto.
Qed.

Lemma get_chat_no_room_witness :
  let db := [ {| members := ["alice"; "bob"]; messages := [Sample.message "alice" "bob" "hi"] |} ] in
  get_chat (fun _ => JNull) db "carol" "alice" = JSONResponse 200 (JArr []).
Proof.
  apply get_chat_no_room. apply Forall_forall.
  apply (bool_decide_unpack _). vm_compute. exact I.
Defined.

Section ChatUsersFacts.

Implicit Types (chat : room) (db : list room) (user : string).

Lemma eq_str_true (v : json) user : eq_str v user = true ↔ v = JStr user.
Proof.
  destruct v; cbn; try (split; [done|by intros [=]]).
  rewrite bool_decide_eq_true. split; [by intros ->|by intros [= ->]].
Qed.

(** The first member that is not [user], and the members before it. *)
Lemma first_other_member user (l : list string) :
  (∃ peer, peer ∈ l ∧ peer ≠ user) →
  ∃ peer pre post,
    l = pre ++ peer :: post ∧ (∀ el, el ∈ pre → el = user) ∧ peer ≠ user ∧
    first_item (filter (fun el => el ≠ user) l) = Ok peer.
Proof.
  induction l as [|x l IH]; intros (peer & Hin & Hne).
  - by apply elem_of_nil in Hin.
  - destruct (decide (x = user)) as [->|Hx].
    + apply elem_of_cons in Hin as [->|Hin]; [done|].
      destruct IH as (peer' & pre & post & -> & Hpre & Hpeer & Hfirst); [by exists peer|].
      exists peer', (user :: pre), post. split; [done|]. split; [|split; [done|]].
      * intros el Hel. apply elem_of_cons in Hel as [->|Hel]; [done|]. by apply Hpre.
      * by rewrite filter_cons_False by (intros Hn; by apply Hn).
    + exists x, [], l. split; [done|]. split; [|split; [done|]].
      * intros el Hel. by apply elem_of_nil in Hel.
      * by rewrite filter_cons_True by done.
Qed.

Lemma chat_users_entry_listable user chat :
  listable user chat →
  ∃ item, chat_users_entry user chat = Ok item ∧ room_listing user chat item.
Proof.
  intros [(msg & Hlast & [from Hfrom] & [to Hto]) Hother].
  destruct (first_other_member user (members chat) Hother)
    as (peer & pre & post & Hm & Hpre & Hpeer & Hfirst).
  unfold chat_users_entry, last_item, getitem, delitem.
  rewrite Hlast, Hfirst. cbn. rewrite Hfrom. cbn.
  rewrite lookup_insert_ne, Hfrom by done. cbn.
  rewrite lookup_delete_ne, lookup_insert_ne, Hto by done. cbn.
  eexists. split; [reflexivity|].
  exists peer, pre, post, msg,
    (delete "to" (delete "from" (<["is_myself" := JBool (eq_str from user)]> msg))),
    (eq_str from user).
  split; [done|]. split; [done|]. split; [done|]. split; [done|].
  split; [|split; [|split; [|split; [|split; [|done]]]]].
  - rewrite eq_str_true, Hfrom. split; [by intros ->|by intros [=]].
  - by rewrite !lookup_delete_ne, lookup_insert_eq by done.
  - by rewrite lookup_delete_ne, lookup_delete_eq by done.
  - by rewrite lookup_delete_eq.
  - intros k Hk1 Hk2 Hk3. by rewrite !lookup_delete_ne, lookup_insert_ne by done.
Qed.

Lemma well_formed_listable user chat :
  user ∈ members chat → well_formed chat → messages chat ≠ [] → listable user chat.
Proof.
  intros Hu [(a & b & Hab & Hm) Hmsgs] Hne. split.
  - destruct (last (messages chat)) as [msg|] eqn:Hlast;
      [|by apply last_None in Hlast].
    exists msg. split; [done|].
    rewrite Forall_forall in Hmsgs. apply Hmsgs. by eapply last_Some_elem_of.
  - rewrite Hm in Hu |- *. apply elem_of_cons in Hu as [->|Hu].
    + exists b. split; [right; left|congruence].
    + apply list_elem_of_singleton in Hu as ->. exists a. split; [left|done].
Qed.

Lemma chat_users_entry_ok user chat :
  user ∈ members chat → well_formed chat → messages chat ≠ [] →
  ∃ item, chat_users_entry user chat = Ok item ∧ room_listing user chat item.
Proof.
  intros Hu Hwf Hne. by apply chat_users_entry_listable, well_formed_listable.
Qed.

Lemma chat_users_entry_empty user chat :
  messages chat = [] → chat_users_entry user chat = Raise IndexError.
Proof. intros Hm. unfold chat_users_entry. by rewrite Hm. Qed.

Lemma chat_users_cons_skip user chat db :
  user ∉ members chat → chat_users (chat :: db) user = chat_users db user.
Proof.
  intros Hn. unfold chat_users, find.
  by rewrite filter_cons_False by (by rewrite members_all_one).
Qed.

Lemma chat_users_cons_take user chat db :
  user ∈ members chat →
  chat_users (chat :: db) user =
    (item ← chat_users_entry user chat; items ← chat_users db user; Ok (item :: items)).
Proof.
  intros Hin. unfold chat_users, find.
  by rewrite filter_cons_True by (by rewrite members_all_one).
Qed.

End ChatUsersFacts.

(** C8 (as stated, refuted). Alice is in two rooms, and the first holds no
    message: the listing raises [IndexError] and returns nothing, not even
    for her room with carol, which holds a message. *)
Lemma room_without_message_breaks_listing :
  chat_users
    [ {| members := ["bob"; "alice"]; messages := [] |};
      {| members := ["alice"; "carol"];
         messages := [Sample.message "carol" "alice" "hey"] |} ] "alice" =
  Raise IndexError.
Proof. by vm_compute. Qed.

(** C8 (amended). When every room the requester is a member of holds a last
    message with an author and an addressee and has a member other than the
    requester, the room listing returns, for the rooms the requester is a
    member of, in stored order, the first other member of the room together
    with the room's most recent message, without its author and addressee
    and flagged with whether the requester is the author. *)
Theorem chat_users_lists_rooms (db : list room) (user : string) :
  (∀ chat, chat ∈ db → user ∈ members chat → listable user chat) →
  ∃ data, chat_users db user = Ok data ∧
          Forall2 (room_listing user)
            (filter (fun chat => user ∈ members chat) db) data.
Proof.
  induction db as [|chat db IH]; intros Hok.
  - exists []. split; [done|]. constructor.
  - destruct IH as (data & Hdata & Hall).
    { intros c Hc. apply Hok. by right. }
    destruct (decide (user ∈ members chat)) as [Hin|Hout].
    + destruct (chat_users_entry_listable user chat) as (item & Hitem & Hlisting).
      { apply Hok; [by left|done]. }
      exists (item :: data). split.
      * rewrite chat_users_cons_take, Hitem, Hdata by done. done.
      * rewrite filter_cons_True by done. by constructor.
    + exists data. split; [by rewrite chat_users_cons_skip|].
      by rewrite filter_cons_False by done.
Qed.

Lemma chat_users_lists_rooms_witness :
  let db := [ {| members := ["alice"; "bob"];
                 messages := [Sample.message "alice" "bob" "hi";
                              Sample.message "bob" "alice" "yo"] |};
              {| members := ["carol"; "dave"]; messages := [] |};
              {| members := ["carol"; "alice"];
                 messages := [Sample.message "alice" "carol" "hey"] |} ] in
  chat_users db "alice" =
    Ok [ JObj (<["username" := JStr "bob"]>
               (<["last_message" :=
                    JObj (<["is_myself" := JBool false]>
                          (<["message" := JStr "yo"]>
                          (<["time" := JNum Sample.now]> ∅)))]> ∅));
         JObj (<["username" := JStr "carol"]>
               (<["last_message" :=
                    JObj (<["is_myself" := JBool true]>
                          (<["message" := JStr "hey"]>
                          (<["time" := JNum Sample.now]> ∅)))]> ∅)) ] ∧
  ∃ data, chat_users db "alice" = Ok data ∧
          Forall2 (room_listing "alice")
            (filter (fun chat => "alice" ∈ members chat) db) data.
Proof.
  intros db. split; [by vm_compute|].
  apply (chat_users_lists_rooms db "alice").
  rewrite <- Forall_forall. repeat apply Forall_cons_2; [..|apply Forall_nil_2].
  - intros _. split.
    + eexists. split; [reflexivity|]. split; by eexists.
    + exists "bob". split; [right; left|done].
  - intros Hin. exfalso. revert Hin. apply (bool_decide_unpack _). by vm_compute.
  - intros _. split.
    + eexists. split; [reflexivity|]. split; by eexists.
    + exists "carol". split; [left|done].
Defined.

(** C10. [chat_users] takes the last message of each room of the requester
    without a guard: over rooms that are otherwise as the data model has
    them, it ends in [IndexError] exactly when one of the requester's rooms
    holds no message. *)
Theorem chat_users_needs_messages (db : list room) (user : string) :
  (∀ chat, chat ∈ db → user ∈ members chat → well_formed chat) →
  chat_users db user = Raise IndexError ↔
  ∃ chat, chat ∈ db ∧ user ∈ members chat ∧ messages chat = [].
Proof.
  induction db as [|chat db IH]; intros Hwf.
  - split; [done|]. intros (c & Hc & _). by apply elem_of_nil in Hc.
  - assert (Hsplit : (∃ c, c ∈ chat :: db ∧ user ∈ members c ∧ messages c = []) ↔
                     (user ∈ members chat ∧ messages chat = []) ∨
                     (∃ c, c ∈ db ∧ user ∈ members c ∧ messages c = [])).
    { split.
      - intros (c & Hc & Hu & Hm). apply elem_of_cons in Hc as [->|Hc]; eauto.
      - intros [[Hu Hm]|(c & Hc & Hu & Hm)].
        + exists chat. split; [by left|done].
        + exists c. split; [by right|done]. }
    rewrite Hsplit. clear Hsplit.
    specialize (IH (fun c Hc => Hwf c (list_elem_of_further _ _ _ Hc))).
    destruct (decide (user ∈ members chat)) as [Hin|Hout].
    + rewrite chat_users_cons_take by done.
      destruct (messages chat) as [|m ms] eqn:Hm.
      * rewrite chat_users_entry_empty by done. split; [intros _; by left|done].
      * destruct (chat_users_entry_ok user chat Hin) as (item & Hitem & _).
        { apply Hwf; [by left|done]. }
        { by rewrite Hm. }
        rewrite Hitem. cbn.
        destruct (chat_users db user) as [items|e] eqn:E; cbn.
        -- split; [done|]. intros [[_ ?]|Hex]; [done|]. by apply IH in Hex.
        -- rewrite IH. split; [by right|]. by intros [[_ ?]|?].
    + rewrite chat_users_cons_skip by done. rewrite IH.
      split; [by right|]. by intros [[? _]|?].
Qed.

Lemma chat_users_needs_messages_witness :
  let db := [ {| members := ["alice"; "bob"];
                 messages := [Sample.message "alice" "bob" "hi"] |};
              {| members := ["carol"; "alice"]; messages := [] |} ] in
  chat_users db "alice" = Raise IndexError ∧
  ∃ chat, chat ∈ db ∧ "alice" ∈ members chat ∧ messages chat = [].
Proof.
  intros db.
  assert (Hwf : ∀ chat, chat ∈ db → "alice" ∈ members chat → well_formed chat).
  { rewrite <- Forall_forall. repeat apply Forall_cons_2; [..|apply Forall_nil_2].
    - intros _. split; [by exists "alice", "bob"|].
      repeat apply Forall_cons_2; [..|apply Forall_nil_2]; split; by eexists.
    - intros _. split; [by exists "carol", "alice"|]. apply Forall_nil_2. }
  split; [by vm_compute|].
  apply (chat_users_needs_messages db "alice" Hwf). by vm_compute.
Defined.

(** ** The websocket handler *)

Section HandlerFacts.

Context `{Collaborators}.

Implicit Types (ws : handle) (s : state) (data : dict) (tr : list event).

Lemma token_in_keys data :
  bool_decide ("token" ∈ dom data) = false ↔ data !! "token" = None.
Proof.
  rewrite bool_decide_eq_false. apply not_elem_of_dom.
Qed.

Lemma is_authorized_entry ws s user :
  {| username := user; websocket := ws |} ∈ authorized_connections s →
  is_authorized ws s = true.
Proof.
  intros Hin. unfold is_authorized. apply existsb_exists.
  exists {| username := user; websocket := ws |}.
  split; [by apply list_elem_of_In|]. by apply bool_decide_eq_true_2.
Qed.

Lemma is_authorized_no_entry ws s : no_entry ws s → is_authorized ws s = false.
Proof.
  intros Hno. apply not_true_is_false. intros Hex.
  apply existsb_exists in Hex as (d & Hin & Hd).
  apply bool_decide_eq_true_1 in Hd. apply (Hno d); [|done].
  by apply list_elem_of_In.
Qed.

Lemma sent_cases ws text s :
  (send_text ws text s = None ∧ sent ws text s = (s, [Send_text ws text], None)) ∨
  (∃ e, send_text ws text s = Some e ∧ sent ws text s = (s, [], Some e)).
Proof.
  unfold sent. destruct (send_text ws text s) as [e|]; [right; by exists e|by left].
Qed.

Lemma on_frame_not_object ws s (frame : json) :
  (∀ data, frame ≠ JObj data) → on_frame ws frame s = (s, [], Some AttributeError).
Proof. destruct frame as [| | | | |data]; try done. intros Hn. by destruct (Hn data). Qed.

Lemma on_frame_no_entry ws s data :
  data !! "token" = None → no_entry ws s →
  on_frame ws (JObj data) s = sent ws "websocket not authorized" s.
Proof.
  intros Htok Hno. unfold on_frame.
  apply token_in_keys in Htok. by rewrite Htok, is_authorized_no_entry.
Qed.

Lemma on_frame_send ws s data receiver sender message :
  data !! "token" = None → is_authorized ws s = true →
  data !! "receiver" = Some receiver → data !! "sender" = Some sender →
  data !! "message" = Some message →
  on_frame ws (JObj data) s =
    ((send_personal_message receiver sender message s).1.1,
     Call_send_personal_message ws receiver sender message
     :: map (fun p => Push p.1 p.2) (send_personal_message receiver sender message s).1.2,
     (send_personal_message receiver sender message s).2).
Proof.
  intros Htok Hauth Hr Hs Hm. unfold on_frame, getitem.
  apply token_in_keys in Htok. rewrite Htok, Hauth, Hr, Hs, Hm. cbn.
  by destruct (send_personal_message receiver sender message s) as [[? ?] ?].
Qed.


Lemma on_frame_token ws s data token user :
  data !! "token" = Some token → decode_token token = Ok user →
  on_frame ws (JObj data) s =
    sent ws "successful authorization"
      (append_authorized {| username := user; websocket := ws |} s).
Proof.
  intros Htok Hdec. unfold on_frame, getitem.
  rewrite bool_decide_eq_true_2 by (apply elem_of_dom; eauto).
  rewrite Htok. cbn. by rewrite Hdec.
Qed.

Lemma on_frame_token_refused ws s data token e :
  data !! "token" = Some token → decode_token token = Raise e →
  on_frame ws (JObj data) s = (s, [], Some e).
Proof.
  intros Htok Hdec. unfold on_frame, getitem.
  rewrite bool_decide_eq_true_2 by (apply elem_of_dom; eauto).
  rewrite Htok. cbn. by rewrite Hdec.
Qed.

(** What one frame can do: fail before it did anything, authorize the
    connection and confirm, turn an unauthorized send away, or hand a send
    to the manager. *)
Lemma on_frame_cases ws s (frame : json) :
  (∃ e, on_frame ws frame s = (s, [], Some e) ∧
        (e = WebSocketDisconnect → ∃ token, decode_token token = Raise e)) ∨
  (∃ user, on_frame ws frame s =
     sent ws "successful authorization"
       (append_authorized {| username := user; websocket := ws |} s)) ∨
  (is_authorized ws s = false ∧
   on_frame ws frame s = sent ws "websocket not authorized" s) ∨
  (is_authorized ws s = true ∧
   ∃ receiver sender message,
     on_frame ws frame s =
       ((send_personal_message receiver sender message s).1.1,
        Call_send_personal_message ws receiver sender message
        :: map (fun p => Push p.1 p.2)
             (send_personal_message receiver sender message s).1.2,
        (send_personal_message receiver sender message s).2)).
Proof.
  destruct frame as [| | | | |data]; try (left; by eexists).
  unfold on_frame. case_bool_decide as Htok.
  - destruct (getitem data "token") as [token|e] eqn:Hget; cbn.
    + destruct (decode_token token) as [user|e] eqn:Hdec; cbn.
      * right; left. by eexists.
      * left. exists e. split; [done|]. intros _. by exists token.
    + left. exists e. split; [done|]. intros ->.
      unfold getitem in Hget. by destruct (data !! "token").
  - destruct (is_authorized ws s) eqn:Hauth; cbn; [|right; right; left; done].
    unfold getitem.
    destruct (data !! "receiver") as [r|]; cbn; [|left; by eexists].
    destruct (data !! "sender") as [sd|]; cbn; [|left; by eexists].
    destruct (data !! "message") as [m|]; cbn; [|left; by eexists].
    right; right; right. split; [done|]. exists r, sd, m.
    by destruct (send_personal_message r sd m s) as [[? ?] ?].
Qed.

Lemma loop_cons_None ws s s' received evs inputs :
  turn ws received s = (s', evs, None) →
  loop ws (received :: inputs) s =
    ((loop ws inputs s').1.1, evs ++ (loop ws inputs s').1.2, (loop ws inputs s').2).
Proof.
  intros Ht. cbn [loop]. rewrite Ht.
  by destruct (loop ws inputs s') as [[s'' evs'] st].
Qed.

Lemma loop_cons_Some ws s s' received evs e inputs :
  turn ws received s = (s', evs, Some e) → e ≠ WebSocketDisconnect →
  loop ws (received :: inputs) s = (s', evs, Propagated e).
Proof.
  intros Ht He. cbn [loop]. rewrite Ht. by destruct e.
Qed.

Lemma loop_cons_disconnect ws s s' received evs inputs :
  turn ws received s = (s', evs, Some WebSocketDisconnect) →
  loop ws (received :: inputs) s =
    ((disconnect ws s').1, evs ++ [Call_disconnect ws],
     match (disconnect ws s').2 with
     | None => Returned
     | Some e => Propagated e
     end).
Proof.
  intros Ht. cbn [loop]. rewrite Ht. by destruct (disconnect ws s').
Qed.

(** When a turn raises, the trace ends with what the turn did, followed by
    the call of [disconnect] if there is one. *)
Lemma loop_cons_raised ws s s' received evs e inputs :
  turn ws received s = (s', evs, Some e) →
  (loop ws (received :: inputs) s).1.2 = evs ∨
  (loop ws (received :: inputs) s).1.2 = evs ++ [Call_disconnect ws].
Proof.
  intros Ht. destruct (decide (e = WebSocketDisconnect)) as [->|He].
  - right. by rewrite (loop_cons_disconnect _ _ _ _ _ _ Ht).
  - left. by rewrite (loop_cons_Some _ _ _ _ _ _ _ Ht He).
Qed.

(** In the trace of the loop, started on a connection without an entry,
    every call of [send_personal_message] comes after the confirmation of an
    authorization. *)
Lemma loop_send_after_authorization ws inputs s pre post receiver sender message :
  no_entry ws s →
  (loop ws inputs s).1.2 =
    pre ++ Call_send_personal_message ws receiver sender message :: post →
  Send_text ws "successful authorization" ∈ pre.
Proof.
  revert s pre. induction inputs as [|received inputs IH]; intros s pre Hno Htr.
  - by destruct pre.
  - assert (Hended : ∀ s' e, turn ws received s = (s', [], Some e) → False).
    { intros s' e Ht.
      destruct (loop_cons_raised _ _ _ _ _ _ inputs Ht) as [Heq|Heq];
        rewrite Heq in Htr; by destruct pre as [|? [|? ?]]. }
    destruct received as [frame|e]; [|by destruct (Hended s e)].
    destruct (on_frame_cases ws s frame)
      as [(e & Hf & _)|[[user Hf]|[[_ Hf]|[Hauth _]]]].
    + by destruct (Hended s e).
    + destruct (sent_cases ws "successful authorization"
                  (append_authorized {| username := user; websocket := ws |} s))
        as [[_ Hs]|(e & _ & Hs)]; rewrite Hs in Hf.
      * rewrite (loop_cons_None _ _ _ (Ok frame) _ _ Hf) in Htr. cbn in Htr.
        destruct pre as [|ev pre]; [done|]. injection Htr as <- _. by left.
      * by destruct (Hended _ e Hf).
    + destruct (sent_cases ws "websocket not authorized" s)
        as [[_ Hs]|(e & _ & Hs)]; rewrite Hs in Hf.
      * rewrite (loop_cons_None _ _ _ (Ok frame) _ _ Hf) in Htr. cbn in Htr.
        destruct pre as [|ev pre]; [done|]. injection Htr as _ Htr.
        right. by eapply IH.
      * by destruct (Hended _ e Hf).
    + by rewrite is_authorized_no_entry in Hauth.
Qed.

Lemma loop_returned ws inputs s :
  (loop ws inputs s).2 = Returned →
  ∃ s0, (loop ws inputs s).1.1 = (disconnect ws s0).1.
Proof.
  revert s. induction inputs as [|received inputs IH]; intros s; [done|].
  destruct (turn ws received s) as [[s' evs] [e|]] eqn:Ht.
  - destruct (decide (e = WebSocketDisconnect)) as [->|He].
    + rewrite (loop_cons_disconnect _ _ _ _ _ _ Ht). cbn. intros _. by exists s'.
    + by rewrite (loop_cons_Some _ _ _ _ _ _ _ Ht He).
  - rewrite (loop_cons_None _ _ _ _ _ _ Ht). cbn. apply IH.
Qed.



(** C1 (amended). The handler does not compare the sender of a send frame
    with the identity the connection is authorized as: on a connection that
    has an entry, under whatever name, the frame's receiver, sender and
    message are passed to [send_personal_message] as the client gave them,
    and the handler raises nothing of its own. *)
Theorem send_frame_forwarded_as_claimed ws s data user receiver sender message :
  {| username := user; websocket := ws |} ∈ authorized_connections s →
  data !! "token" = None →
  data !! "receiver" = Some receiver → data !! "sender" = Some sender →
  data !! "message" = Some message →
  on_frame ws (JObj data) s =
    ((send_personal_message receiver sender message s).1.1,
     Call_send_personal_message ws receiver sender message
     :: map (fun p => Push p.1 p.2) (send_personal_message receiver sender message s).1.2,
     (send_personal_message receiver sender message s).2).
Proof.
  intros Hin Htok Hr Hs Hm. apply on_frame_send; [done| |done..].
  by eapply is_authorized_entry.
Qed.

(** C2 (amended). On a connection that has no entry in
    [authorized_connections], whoever else is authorized: a frame that is a
    JSON object without a token changes nothing, is dropped, and is answered
    with "websocket not authorized", after which the handler goes on with
    the next frame, unless the send of that notice raises; a frame that is
    no JSON object gets no notice and ends the handler with
    [AttributeError]; and in every run that starts there, each call of
    [send_personal_message] by the handler comes after it confirmed an
    authorization of the connection. *)
Theorem unauthorized_send_turned_away ws s :
  (∀ d, d ∈ authorized_connections s → websocket d ≠ ws) →
  (∀ data, data !! "token" = None →
     on_frame ws (JObj data) s =
       match send_text ws "websocket not authorized" s with
       | None => (s, [Send_text ws "websocket not authorized"], None)
       | Some e => (s, [], Some e)
       end) ∧
  (∀ data rest, data !! "token" = None →
     send_text ws "websocket not authorized" s = None →
     loop ws (Ok (JObj data) :: rest) s =
       ((loop ws rest s).1.1,
        Send_text ws "websocket not authorized" :: (loop ws rest s).1.2,
        (loop ws rest s).2)) ∧
  (∀ (frame : json) rest, (∀ data, frame ≠ JObj data) →
     loop ws (Ok frame :: rest) s = (s, [], Propagated AttributeError)) ∧
  (∀ inputs pre post receiver sender message,
     (loop ws inputs s).1.2 =
       pre ++ Call_send_personal_message ws receiver sender message :: post →
     Send_text ws "successful authorization" ∈ pre).
Proof.
  intros Hno. repeat split.
  - intros data Htok. by rewrite on_frame_no_entry.
  - intros data rest Htok Hsend.
    rewrite (loop_cons_None ws s s (Ok (JObj data)) [Send_text ws "websocket not authorized"]);
      [done|].
    cbn [turn]. rewrite on_frame_no_entry by done. unfold sent. by rewrite Hsend.
  - intros frame rest Hframe.
    apply loop_cons_Some; [|done]. cbn [turn]. by apply on_frame_not_object.
  - intros inputs pre post r sd m. by apply loop_send_after_authorization.
Qed.



(** An accepted token frame appends its entry whether or not the
    confirmation can be sent. *)
Lemma on_frame_token_appends ws s data token user :
  data !! "token" = Some token → decode_token token = Ok user →
  authorized_connections (on_frame ws (JObj data) s).1.1 =
    authorized_connections s ++ [ {| username := user; websocket := ws |} ].
Proof.
  intros Htok Hdec. rewrite (on_frame_token _ _ _ _ _ Htok Hdec).
  by destruct (sent_cases ws "successful authorization"
                 (append_authorized {| username := user; websocket := ws |} s))
    as [[_ ->]|(e & _ & ->)].
Qed.

(** C6 (amended). Every token frame that [decode_token] accepts appends an
    entry for the connection to [authorized_connections], whatever the list
    holds and whether or not the confirmation can be sent; the entries that
    were there stay, so after a sequence of such frames, each confirmed to
    the client, the connection has one more entry for each of them. *)
Theorem token_frames_append_entries ws (frames : list dict) (users : list string) s :
  Forall2 (fun data user =>
             ∃ token, data !! "token" = Some token ∧ decode_token token = Ok user)
          frames users →
  Forall2 (fun data user =>
             ∀ s0, authorized_connections (on_frame ws (JObj data) s0).1.1 =
                     authorized_connections s0
                     ++ [ {| username := user; websocket := ws |} ])
          frames users ∧
  ((∀ s', send_text ws "successful authorization" s' = None) →
   authorized_connections (loop ws (map (fun data => Ok (JObj data)) frames) s).1.1 =
     authorized_connections s
     ++ map (fun user => {| username := user; websocket := ws |}) users ∧
   (loop ws (map (fun data => Ok (JObj data)) frames) s).2 = Receiving).
Proof.
  intros Hall. split.
  - eapply Forall2_impl; [exact Hall|].
    intros data user (token & Htok & Hdec) s0. by eapply on_frame_token_appends.
  - intros Hsend. revert s.
    induction Hall as [|data user frames users (token & Htok & Hdec) _ IH]; intros s.
    + cbn. by rewrite app_nil_r.
    + cbn [map].
      rewrite (loop_cons_None ws s
                 (append_authorized {| username := user; websocket := ws |} s)
                 (Ok (JObj data)) [Send_text ws "successful authorization"]).
      * cbn [fst snd].
        destruct (IH (append_authorized {| username := user; websocket := ws |} s))
          as [-> ->].
        split; [|done]. cbn. by rewrite <- app_assoc.
      * cbn [turn]. rewrite (on_frame_token _ _ _ _ _ Htok Hdec).
        unfold sent. by rewrite Hsend.
Qed.

End HandlerFacts.

(** C1 (as stated, refuted). A connection authorized as mallory sends a
    frame whose sender is alice: the frame is handed to the manager with the
    sender alice, pushed to bob and stored as a message from alice. *)
Lemma spoofed_sender_is_forwarded :
  on_frame (H := Sample.collaborators) 1
    (Sample.send_frame "bob" "alice" "hi") Sample.mallory_and_bob =
  ({| active_connections := [1; 2];
      authorized_connections :=
        [ {| username := "mallory"; websocket := 1 |};
          {| username := "bob"; websocket := 2 |} ];
      chat_rooms :=
        [ {| members := ["alice"; "bob"];
             messages := [Sample.message "alice" "bob" "hi"] |} ] |},
   [ Call_send_personal_message 1 (JStr "bob") (JStr "alice") (JStr "hi");
     Push 2 (JStr "hi") ],
   None).
Proof. by vm_compute. Qed.

Lemma send_frame_forwarded_as_claimed_witness :
  on_frame (H := Sample.collaborators) 1
    (JObj (Sample.send_data "bob" "alice" "hi")) Sample.mallory_and_bob =
  ((send_personal_message (Collaborators := Sample.collaborators)
      (JStr "bob") (JStr "alice") (JStr "hi") Sample.mallory_and_bob).1.1,
   Call_send_personal_message 1 (JStr "bob") (JStr "alice") (JStr "hi")
   :: map (fun p => Push p.1 p.2)
        (send_personal_message (Collaborators := Sample.collaborators)
           (JStr "bob") (JStr "alice") (JStr "hi") Sample.mallory_and_bob).1.2,
   (send_personal_message (Collaborators := Sample.collaborators)
      (JStr "bob") (JStr "alice") (JStr "hi") Sample.mallory_and_bob).2).
Proof.
  apply (send_frame_forwarded_as_claimed (H := Sample.collaborators)
           1 Sample.mallory_and_bob _ "mallory").
  - by left.
  - reflexivity.
  - reflexivity.
  - reflexivity.
  - reflexivity.
Defined.

(** C2 (as stated, refuted). Connection 3 has no entry.  The frame [[]] has
    no token field, yet it gets no notice: the handler ends with
    [AttributeError] and does not read the frame that follows. *)
Lemma frame_without_fields_gets_no_notice :
  loop (H := Sample.collaborators) 3
    [Ok (JArr []); Ok (Sample.send_frame "bob" "alice" "hi")]
    Sample.mallory_and_bob =
  (Sample.mallory_and_bob, [], Propagated AttributeError).
Proof. by vm_compute. Qed.

Lemma unauthorized_send_turned_away_witness :
  (∀ d, d ∈ authorized_connections Sample.mallory_and_bob → websocket d ≠ 3) ∧
  (∀ data, data !! "token" = None →
     on_frame (H := Sample.collaborators) 3 (JObj data) Sample.mallory_and_bob =
       (Sample.mallory_and_bob, [Send_text 3 "websocket not authorized"], None)) ∧
  loop (H := Sample.collaborators) 3
    [Ok (Sample.send_frame "bob" "alice" "hi"); Ok (Sample.token_frame "t-alice");
     Ok (Sample.send_frame "bob" "alice" "hi")] Sample.mallory_and_bob =
  ({| active_connections := [1; 2];
      authorized_connections :=
        [ {| username := "mallory"; websocket := 1 |};
          {| username := "bob"; websocket := 2 |};
          {| username := "alice"; websocket := 3 |} ];
      chat_rooms :=
        [ {| members := ["alice"; "bob"];
             messages := [Sample.message "alice" "bob" "hi"] |} ] |},
   [ Send_text 3 "websocket not authorized";
     Send_text 3 "successful authorization";
     Call_send_personal_message 3 (JStr "bob") (JStr "alice") (JStr "hi");
     Push 2 (JStr "hi") ],
   Receiving).
Proof.
  assert (Hno : ∀ d, d ∈ authorized_connections Sample.mallory_and_bob → websocket d ≠ 3).
  { rewrite <- Forall_forall. apply (bool_decide_unpack _). by vm_compute. }
  split; [done|]. split; [|by vm_compute].
  destruct (unauthorized_send_turned_away (H := Sample.collaborators)
              3 Sample.mallory_and_bob Hno) as [Hnotice _].
  exact Hnotice.
Defined.





(** C6 (as stated, refuted). Two token frames on one connection leave two
    entries for its handle. *)
Lemma second_token_adds_second_entry :
  authorized_connections
    (loop (H := Sample.collaborators) 1
       [Ok (Sample.token_frame "t-alice"); Ok (Sample.token_frame "t-alice")]
       Sample.empty_state).1.1 =
  [ {| username := "alice"; websocket := 1 |};
    {| username := "alice"; websocket := 1 |} ].
Proof. by vm_compute. Qed.

Lemma token_frames_append_entries_witness :
  authorized_connections
    (loop (H := Sample.collaborators) 2
       (map (fun data => Ok (JObj data))
            [Sample.token_data "t-bob"; Sample.token_data "t-alice"])
       Sample.mallory_and_bob).1.1 =
  authorized_connections Sample.mallory_and_bob
  ++ map (fun user => {| username := user; websocket := 2 |}) ["bob"; "alice"] ∧
  (loop (H := Sample.collaborators) 2
     (map (fun data => Ok (JObj data))
          [Sample.token_data "t-bob"; Sample.token_data "t-alice"])
     Sample.mallory_and_bob).2 = Receiving.
Proof.
  destruct (token_frames_append_entries (H := Sample.collaborators) 2
              [Sample.token_data "t-bob"; Sample.token_data "t-alice"] ["bob"; "alice"]
              Sample.mallory_and_bob) as [_ Hentries].
  - repeat apply Forall2_cons_2; [..|apply Forall2_nil_2].
    + exists (JStr "t-bob"). split; reflexivity.
    + exists (JStr "t-alice"). split; reflexivity.
  - apply Hentries. reflexivity.
Defined.

(** ** The registry of the specification *)

Section SpecFacts.

Implicit Types (ws : handle) (s : state) (chat : room).

Lemma remove_not_authorized ws s :
  is_authorized ws (Spec.remove ws s) = false.
Proof.
  unfold is_authorized, Spec.remove. cbn.
  apply not_true_is_false. intros Hex.
  apply existsb_exists in Hex as (d & Hin & Hd).
  apply list_elem_of_In, list_elem_of_filter in Hin as [Hne _].
  by apply bool_decide_eq_true_1 in Hd.
Qed.

Lemma register_authorized ws ws' s :
  is_authorized ws (Spec.register ws' s) = is_authorized ws s.
Proof. reflexivity. Qed.

(** With the registry of the specification, a handler that leaves through
    [except WebSocketDisconnect] leaves no entry of its connection. *)
Lemma disconnect_path_cleans_up verify now ws inputs s :
  (websocket_endpoint (H := Spec.collaborators verify now) ws inputs s).2 = Returned →
  is_authorized ws
    (websocket_endpoint (H := Spec.collaborators verify now) ws inputs s).1.1 = false.
Proof.
  unfold websocket_endpoint. cbn [connect Spec.collaborators].
  pose proof (loop_returned (H := Spec.collaborators verify now)
                ws inputs (Spec.register ws s)) as Hret.
  destruct (loop ws inputs (Spec.register ws s)) as [[s' evs] st]. cbn in *.
  intros Hst. destruct (Hret Hst) as [s0 ->]. apply remove_not_authorized.
Qed.

End SpecFacts.

(** ** Collections *)

#[local] Set Default Proof Using "Type".

Section MongoFacts.

Context {D : Type} (P : D → Prop) `{!∀ d, Decision (P d)}.

Implicit Types (coll : list D) (d : D).

Lemma find_one_is_None coll :
  Mongo.find_one P coll = None ↔ ∀ d, d ∈ coll → ¬ P d.
Proof.
  unfold Mongo.find_one. rewrite head_None. split.
  - intros Hnil d Hin HP.
    assert (Hd : d ∈ filter P coll) by (by apply list_elem_of_filter).
    rewrite Hnil in Hd. by apply elem_of_nil in Hd.
  - intros Hno. destruct (filter P coll) as [|d l] eqn:E; [done|].
    assert (Hd : d ∈ filter P coll) by (rewrite E; left).
    apply list_elem_of_filter in Hd as [HP Hin]. by destruct (Hno d).
Qed.

Lemma find_one_is_Some coll d :
  Mongo.find_one P coll = Some d → P d ∧ d ∈ coll.
Proof.
  unfold Mongo.find_one. intros Hhead.
  apply head_Some_elem_of in Hhead. by apply list_elem_of_filter in Hhead.
Qed.

Lemma find_one_cons_True coll d :
  P d → Mongo.find_one P (d :: coll) = Some d.
Proof. intros HP. unfold Mongo.find_one. by rewrite filter_cons_True. Qed.

Lemma find_one_cons_False coll d :
  ¬ P d → Mongo.find_one P (d :: coll) = Mongo.find_one P coll.
Proof. intros HP. unfold Mongo.find_one. by rewrite filter_cons_False. Qed.

Lemma find_one_app_None coll coll' :
  Mongo.find_one P coll = None →
  Mongo.find_one P (coll ++ coll') = Mongo.find_one P coll'.
Proof.
  unfold Mongo.find_one. rewrite head_None, filter_app. by intros ->.
Qed.

Lemma find_one_app_Some coll coll' d :
  Mongo.find_one P coll = Some d → Mongo.find_one P (coll ++ coll') = Some d.
Proof.
  unfold Mongo.find_one. rewrite filter_app. intros Hhead.
  destruct (filter P coll); [done|]. done.
Qed.

(** [update_one] changes at most one document, one that matches. *)
Lemma update_one_pointwise (f : D → D) coll :
  Forall2 (fun d d' => d' = d ∨ (P d ∧ d' = f d)) coll (Mongo.update_one P f coll).
Proof.
  induction coll as [|d coll IH]; cbn; [constructor|].
  destruct (decide (P d)).
  - constructor; [by right|]. apply Forall_Forall2_diag, Forall_forall. by left.
  - constructor; [by left|done].
Qed.

Lemma update_one_no_match (f : D → D) coll :
  (∀ d, d ∈ coll → ¬ P d) → Mongo.update_one P f coll = coll.
Proof.
  induction coll as [|d coll IH]; intros Hno; cbn; [done|].
  rewrite decide_False by (apply Hno; left).
  rewrite IH; [done|]. intros d' Hd'. apply Hno. by right.
Qed.

Lemma update_one_twice (f : D → D) coll :
  (∀ d, P d → P (f d)) → (∀ d, f (f d) = f d) →
  Mongo.update_one P f (Mongo.update_one P f coll) = Mongo.update_one P f coll.
Proof.
  intros Hkeep Hidem. induction coll as [|d coll IH]; cbn; [done|].
  destruct (decide (P d)) as [HP|HP]; cbn.
  - rewrite decide_True by auto. by rewrite Hidem.
  - rewrite decide_False by done. by rewrite IH.
Qed.

End MongoFacts.

(** ** The account endpoints *)

Section AuthFacts.

Context {salt instant : Type}.
Variable get_hashed_password : salt → string → string.
Variable verify_password : string → string → bool.
Variable create_access_token : instant → string → string.

Implicit Types (user : Auth.AuthUser) (users : list Auth.AuthUser).

Lemma find_user_None name users :
  Auth.find_user name users = None ↔ name ∉ (Auth.username <$> users).
Proof.
  unfold Auth.find_user. rewrite find_one_is_None, list_elem_of_fmap. split.
  - intros Hno (d & -> & Hin). by apply (Hno d).
  - intros Hno d Hin Hd. apply Hno. by exists d.
Qed.

Lemma find_user_new name users d :
  name ∉ (Auth.username <$> users) → Auth.username d = name →
  Auth.find_user name (users ++ [d]) = Some d.
Proof.
  intros Hfresh Hd. unfold Auth.find_user.
  rewrite find_one_app_None by (by apply find_user_None).
  by apply find_one_cons_True.
Qed.

(** X1. [registration] answers 409 and stores nothing when the nickname is
    taken; otherwise it answers 200 and appends one document, which holds
    the nickname and the hash of the password.  Documents that were stored
    are never changed. *)
Theorem registration_outcome drawn user users :
  ((Auth.username user ∈ (Auth.username <$> users)) ∧
   status_code (Auth.registration get_hashed_password drawn user users).1 = 409%Z ∧
   (Auth.registration get_hashed_password drawn user users).2 = users) ∨
  ((Auth.username user ∉ (Auth.username <$> users)) ∧
   status_code (Auth.registration get_hashed_password drawn user users).1 = 200%Z ∧
   (Auth.registration get_hashed_password drawn user users).2 =
     users ++ [ {| Auth.username := Auth.username user;
                   Auth.password :=
                     get_hashed_password drawn (Auth.password user) |} ]).
Proof.
  unfold Auth.registration.
  destruct (Auth.find_user (Auth.username user) users) as [d|] eqn:Hfind.
  - left. split; [|done].
    destruct (decide (Auth.username user ∈ (Auth.username <$> users))) as [|Hn]; [done|].
    apply find_user_None in Hn. congruence.
  - right. split; [by apply find_user_None|done].
Qed.

Lemma registration_cases drawn user users :
  ((Auth.username user ∈ (Auth.username <$> users)) ∧
   (Auth.registration get_hashed_password drawn user users).2 = users) ∨
  ((Auth.username user ∉ (Auth.username <$> users)) ∧
   (Auth.registration get_hashed_password drawn user users).2 =
     users ++ [ {| Auth.username := Auth.username user;
                   Auth.password :=
                     get_hashed_password drawn (Auth.password user) |} ]).
Proof.
  unfold Auth.registration.
  destruct (Auth.find_user (Auth.username user) users) as [d|] eqn:Hfind.
  - left. split; [|done].
    destruct (decide (Auth.username user ∈ (Auth.username <$> users))) as [|Hn]; [done|].
    apply find_user_None in Hn. congruence.
  - right. split; [by apply find_user_None|done].
Qed.

(** X2. [registration] keeps the nicknames of [users] distinct. *)
Theorem registration_keeps_nicknames_distinct drawn user users :
  NoDup (Auth.username <$> users) →
  NoDup (Auth.username <$>
           (Auth.registration get_hashed_password drawn user users).2).
Proof.
  intros Hnodup.
  destruct (registration_cases drawn user users) as [[_ ->]|[Hfresh ->]]; [done|].
  rewrite fmap_app. apply NoDup_app. split; [done|]. split.
  - intros name Hin Hname. cbn in Hname.
    apply list_elem_of_singleton in Hname. by subst.
  - apply NoDup_singleton.
Qed.

(** X3. After a registration that was accepted, [login] with the same
    nickname and password answers 200 with the token of the nickname,
    provided [verify_password] accepts a password against its own hash. *)
Theorem registration_then_login drawn now user users :
  Auth.username user ∉ (Auth.username <$> users) →
  verify_password (Auth.password user)
    (get_hashed_password drawn (Auth.password user)) = true →
  Auth.login verify_password create_access_token now user
    (Auth.registration get_hashed_password drawn user users).2 =
  JSONResponse 200
    (JObj (<["access_token" :=
               JStr (create_access_token now (Auth.username user))]> ∅)).
Proof.
  intros Hfresh Hverify.
  destruct (registration_cases drawn user users) as [[? _]|[_ ->]]; [done|].
  unfold Auth.login.
  rewrite (find_user_new _ _
             {| Auth.username := Auth.username user;
                Auth.password := get_hashed_password drawn (Auth.password user) |}
             Hfresh eq_refl).
  cbn. by rewrite Hverify.
Qed.

(** X4. Over distinct nicknames, [login] answers 200 exactly when a stored
    document has the nickname and [verify_password] accepts the password
    against its hash; it answers 404 exactly when no document has the
    nickname. *)
Theorem login_status now user users :
  NoDup (Auth.username <$> users) →
  (status_code (Auth.login verify_password create_access_token now user users) = 200%Z ↔
   ∃ d, d ∈ users ∧ Auth.username d = Auth.username user ∧
        verify_password (Auth.password user) (Auth.password d) = true) ∧
  (status_code (Auth.login verify_password create_access_token now user users) = 404%Z ↔
   Auth.username user ∉ (Auth.username <$> users)).
Proof.
  intros Hnodup. unfold Auth.login.
  destruct (Auth.find_user (Auth.username user) users) as [d|] eqn:Hfind.
  - apply find_one_is_Some in Hfind as [Hname Hin].
    assert (Huniq : ∀ d', d' ∈ users → Auth.username d' = Auth.username user → d' = d).
    { intros d' Hin' Hname'.
      apply list_elem_of_lookup in Hin as [i Hi]. apply list_elem_of_lookup in Hin' as [j Hj].
      assert (i = j) as ->; [|congruence].
      eapply NoDup_lookup; [done|..]; rewrite list_lookup_fmap.
      - by rewrite Hi.
      - rewrite Hj. cbn. congruence. }
    assert (Htaken : Auth.username user ∈ (Auth.username <$> users)).
    { apply list_elem_of_fmap. by exists d. }
    destruct (verify_password (Auth.password user) (Auth.password d)) eqn:Hv; cbn.
    + split; [|by split]. split; [|done]. intros _. by exists d.
    + split; [|by split]. split; [done|].
      intros (d' & Hin' & Hname' & Hv'). rewrite (Huniq d' Hin' Hname') in Hv'. congruence.
  - cbn. apply find_user_None in Hfind. split; [|done]. split; [done|].
    intros (d & Hin & Hname & _). destruct Hfind.
    apply list_elem_of_fmap. by exists d.
Qed.

(** X5. Once a nickname was submitted to [registration], whatever the
    answer, a further registration under it is answered 409 and stores
    nothing, whatever its password. *)
Theorem registration_twice drawn drawn' user user' users :
  Auth.username user' = Auth.username user →
  Auth.registration get_hashed_password drawn' user'
    (Auth.registration get_hashed_password drawn user users).2 =
  (JSONResponse 409 (message_body "nickname is taken"),
   (Auth.registration get_hashed_password drawn user users).2).
Proof.
  intros Hname. unfold Auth.registration at 1. rewrite Hname.
  assert (Htaken : Auth.username user ∈
            (Auth.username <$> (Auth.registration get_hashed_password drawn user users).2)).
  { destruct (registration_cases drawn user users) as [[Hin ->]|[_ ->]]; [done|].
    rewrite fmap_app. apply elem_of_app. right. cbn. left. }
  destruct (Auth.find_user (Auth.username user)
              (Auth.registration get_hashed_password drawn user users).2) eqn:Hfind;
    [done|].
  by apply find_user_None in Hfind.
Qed.

End AuthFacts.

Lemma registration_keeps_nicknames_distinct_witness :
  NoDup (Auth.username <$>
           (Auth.registration Fixture.get_hashed_password "salt"
              {| Auth.username := "Andrey"; Auth.password := "qwerty" |}
              [Fixture.nikita; Fixture.viktor]).2).
Proof.
  apply registration_keeps_nicknames_distinct.
  apply (bool_decide_unpack _). by vm_compute.
Defined.

Lemma registration_then_login_witness :
  Auth.login Fixture.verify_password Fixture.create_access_token 0%Z
    {| Auth.username := "Andrey"; Auth.password := "qwerty" |}
    (Auth.registration Fixture.get_hashed_password "salt"
       {| Auth.username := "Andrey"; Auth.password := "qwerty" |}
       [Fixture.nikita; Fixture.viktor]).2 =
  JSONResponse 200 (JObj (<["access_token" := JStr "token-Andrey"]> ∅)).
Proof.
  apply (registration_then_login Fixture.get_hashed_password Fixture.verify_password
           Fixture.create_access_token "salt" 0%Z
           {| Auth.username := "Andrey"; Auth.password := "qwerty" |}).
  - apply (bool_decide_unpack _). by vm_compute.
  - reflexivity.
Defined.

Lemma login_status_witness :
  Auth.valid {| Auth.username := "Viktor"; Auth.password := "guess-it" |} ∧
  status_code (Auth.login Fixture.verify_password Fixture.create_access_token 0%Z
                 {| Auth.username := "Viktor"; Auth.password := "guess-it" |}
                 [Fixture.nikita; Fixture.viktor]) = 401%Z ∧
  (¬ ∃ d, d ∈ [Fixture.nikita; Fixture.viktor] ∧ Auth.username d = "Viktor" ∧
          Fixture.verify_password "guess-it" (Auth.password d) = true) ∧
  status_code (Auth.login Fixture.verify_password Fixture.create_access_token 0%Z
                 {| Auth.username := "Viktor"; Auth.password := "hidden" |}
                 [Fixture.nikita; Fixture.viktor]) = 200%Z.
Proof.
  assert (Hnodup : NoDup (Auth.username <$> [Fixture.nikita; Fixture.viktor])).
  { apply (bool_decide_unpack _). by vm_compute. }
  split; [unfold Auth.valid; cbn; lia|]. split; [reflexivity|]. split.
  - destruct (login_status Fixture.verify_password Fixture.create_access_token 0%Z
                {| Auth.username := "Viktor"; Auth.password := "guess-it" |}
                [Fixture.nikita; Fixture.viktor] Hnodup) as [[_ Hex] _].
    intros Hd. by apply Hex in Hd.
  - destruct (login_status Fixture.verify_password Fixture.create_access_token 0%Z
                {| Auth.username := "Viktor"; Auth.password := "hidden" |}
                [Fixture.nikita; Fixture.viktor] Hnodup) as [[_ Hex] _].
    apply Hex. exists Fixture.viktor. split; [right; left|]. by split.
Defined.

Lemma registration_twice_witness :
  Auth.valid {| Auth.username := "Andrey"; Auth.password := "qwerty" |} ∧
  Auth.valid {| Auth.username := "Andrey"; Auth.password := "another" |} ∧
  Auth.registration Fixture.get_hashed_password "pepper"
    {| Auth.username := "Andrey"; Auth.password := "another" |}
    (Auth.registration Fixture.get_hashed_password "salt"
       {| Auth.username := "Andrey"; Auth.password := "qwerty" |}
       [Fixture.nikita]).2 =
  (JSONResponse 409 (message_body "nickname is taken"),
   [Fixture.nikita;
    {| Auth.username := "Andrey"; Auth.password := "salt$qwerty" |}]).
Proof.
  split; [unfold Auth.valid; cbn; lia|]. split; [unfold Auth.valid; cbn; lia|].
  apply (registration_twice Fixture.get_hashed_password "salt" "pepper"
           {| Auth.username := "Andrey"; Auth.password := "qwerty" |}
           {| Auth.username := "Andrey"; Auth.password := "another" |}
           [Fixture.nikita]).
  reflexivity.
Defined.

(** ** The card endpoints *)

Section UpdateFirst.

Context {D : Type} (P Q : D → Prop) `{!∀ d, Decision (P d)} `{!∀ d, Decision (Q d)}.

(** When the first document that satisfies [Q] also satisfies the filter
    [P], which is narrower than [Q], it is the one that [update_one]
    changes, and it is still the first that satisfies [Q]. *)
Lemma update_one_first (f : D → D) (coll : list D) (c : D) :
  (∀ d, P d → Q d) → (∀ d, Q d → Q (f d)) →
  Mongo.find_one Q coll = Some c → P c →
  Mongo.find_one Q (Mongo.update_one P f coll) = Some (f c).
Proof.
  intros HPQ HQf. induction coll as [|d coll IH]; intros Hfind HP; [done|].
  cbn. destruct (decide (Q d)) as [HQ|HQ].
  - rewrite find_one_cons_True in Hfind by done. injection Hfind as ->.
    rewrite decide_True by done. apply find_one_cons_True. auto.
  - rewrite find_one_cons_False in Hfind by done.
    rewrite decide_False by auto.
    rewrite find_one_cons_False by done. auto.
Qed.

End UpdateFirst.

Section CardFacts.

Variable ObjectId : string → option Cards.oid.
Variable str : Cards.oid → string.

Implicit Types (d : Cards.db) (c : Cards.Doc.t) (o : Cards.oid) (user : string).

Lemma unknown_user_true user d :
  Cards.unknown_user user d = true ↔ user ∉ (Auth.username <$> Cards.users d).
Proof.
  unfold Cards.unknown_user. rewrite bool_decide_eq_true. apply find_user_None.
Qed.

Lemma unknown_user_false user d :
  Cards.unknown_user user d = false ↔ user ∈ (Auth.username <$> Cards.users d).
Proof.
  rewrite <- not_true_iff_false, unknown_user_true.
  split; [apply dec_stable|]. intros Hin Hout. by apply Hout.
Qed.

Lemma with_cards_same d : Cards.with_cards (Cards.cards d) d = d.
Proof. by destruct d. Qed.

(** X6. A user who is not in [users] is answered 404 "user not found" by
    [add_card], [delete_card] and [update_card], and nothing is stored or
    changed. *)
Theorem unknown_user_turned_away user d :
  user ∉ (Auth.username <$> Cards.users d) →
  (∀ now new_id stat_id card,
     Cards.add_card str now new_id stat_id card user d =
       (Cards.Return (inl Cards.user_not_found), d)) ∧
  (∀ card_id,
     Cards.delete_card ObjectId card_id user d = (Cards.user_not_found, d)) ∧
  (∀ card_id card,
     Cards.update_card ObjectId str card_id card user d =
       (Cards.Return (inl Cards.user_not_found), d)).
Proof.
  intros Hu. apply unknown_user_true in Hu.
  unfold Cards.add_card, Cards.delete_card, Cards.update_card. rewrite Hu. done.
Qed.

(** X7. For a known user and a well-formed id, [delete_card] answers 200
    "deleted" whether or not a card matches; when the user owns no card with
    that id, the database is left as it was. *)
Theorem delete_card_reports_deleted card_id o user d :
  user ∈ (Auth.username <$> Cards.users d) → ObjectId card_id = Some o →
  (Cards.delete_card ObjectId card_id user d).1 =
    JSONResponse 200 (message_body "deleted") ∧
  ((∀ c, c ∈ Cards.cards d → ¬ Cards.owned o user c) →
   (Cards.delete_card ObjectId card_id user d).2 = d).
Proof.
  intros Hu Ho. apply unknown_user_false in Hu.
  unfold Cards.delete_card. rewrite Hu, Ho. cbn. split; [done|].
  intros Hno. rewrite update_one_no_match by done. apply with_cards_same.
Qed.

(** X8. [delete_card] removes no document and changes no user and no
    statistics; a card it changes has the given id, belongs to the user, and
    only gets its [is_deleted] set. *)
Theorem delete_card_frame card_id user d :
  Cards.users (Cards.delete_card ObjectId card_id user d).2 = Cards.users d ∧
  Cards.stats (Cards.delete_card ObjectId card_id user d).2 = Cards.stats d ∧
  Forall2 (fun c c' =>
             c' = c ∨
             (ObjectId card_id = Some (Cards.Doc._id c) ∧ Cards.Doc.user c = user ∧
              c' = Cards.set_deleted c))
          (Cards.cards d) (Cards.cards (Cards.delete_card ObjectId card_id user d).2).
Proof.
  unfold Cards.delete_card.
  assert (Hsame : Forall2 (fun c c' =>
             c' = c ∨
             (ObjectId card_id = Some (Cards.Doc._id c) ∧ Cards.Doc.user c = user ∧
              c' = Cards.set_deleted c)) (Cards.cards d) (Cards.cards d)).
  { apply Forall_Forall2_diag, Forall_forall. by left. }
  destruct (Cards.unknown_user user d); [done|].
  destruct (ObjectId card_id) as [o|]; [|done]. cbn.
  split; [done|]. split; [done|].
  eapply Forall2_impl; [apply update_one_pointwise|].
  intros c c' [->|[[Hid Hown] ->]]; [by left|]. right. by rewrite Hid.
Qed.

(** X9. Deleting a card a second time gives the answer and the database of
    the first time. *)
Theorem delete_card_idempotent card_id user d :
  Cards.delete_card ObjectId card_id user
    (Cards.delete_card ObjectId card_id user d).2 =
  Cards.delete_card ObjectId card_id user d.
Proof.
  unfold Cards.delete_card.
  destruct (Cards.unknown_user user d) eqn:Hu; cbn; [by rewrite Hu|].
  destruct (ObjectId card_id) as [o|] eqn:Ho; cbn; [|by rewrite Hu].
  unfold Cards.unknown_user in *. cbn. rewrite Hu.
  unfold Cards.with_cards. cbn. rewrite update_one_twice; [done| |done].
  by intros c [? ?].
Qed.

(** X10. When the first card with the given id belongs to the user,
    [delete_card] leaves in its place the same card with [is_deleted] set,
    and its other fields as they were. *)
Theorem delete_card_marks_card card_id o user d c :
  user ∈ (Auth.username <$> Cards.users d) → ObjectId card_id = Some o →
  Mongo.find_one (fun c => Cards.Doc._id c = o) (Cards.cards d) = Some c →
  Cards.Doc.user c = user →
  Mongo.find_one (fun c => Cards.Doc._id c = o)
    (Cards.cards (Cards.delete_card ObjectId card_id user d).2) =
  Some {| Cards.Doc._id := o; Cards.Doc.title := Cards.Doc.title c;
          Cards.Doc.date := Cards.Doc.date c; Cards.Doc.counter := Cards.Doc.counter c;
          Cards.Doc.user := user; Cards.Doc.is_deleted := true;
          Cards.Doc.viewed := Cards.Doc.viewed c |}.
Proof.
  intros Hu Ho Hfind Hown. apply unknown_user_false in Hu.
  assert (Hid : Cards.Doc._id c = o) by (by apply find_one_is_Some in Hfind as [? _]).
  unfold Cards.delete_card. rewrite Hu, Ho. cbn.
  rewrite (update_one_first (Cards.owned o user) _ _ _ c); [|by intros ? []|done|done|done].
  unfold Cards.set_deleted. by rewrite Hid, Hown.
Qed.

(** X11. [update_card] looks the card up by its id alone: for a card of
    another user, it changes nothing and returns that card. *)
Theorem update_card_returns_foreign_card card_id o card user d c :
  user ∈ (Auth.username <$> Cards.users d) → ObjectId card_id = Some o →
  Cards.encodable card = true →
  Mongo.find_one (fun c => Cards.Doc._id c = o) (Cards.cards d) = Some c →
  (∀ c', c' ∈ Cards.cards d → ¬ Cards.owned o user c') →
  Cards.update_card ObjectId str card_id card user d =
    (Cards.Return (inr (Cards.view str c)), d).
Proof.
  intros Hu Ho Henc Hfind Hno. apply unknown_user_false in Hu.
  unfold Cards.update_card. rewrite Hu, Ho, Henc. cbn.
  rewrite update_one_no_match by done. rewrite with_cards_same. by rewrite Hfind.
Qed.

(** X12. When no card has the given id, [update_card] changes nothing and
    ends in [TypeError], as it subscripts the [None] that [find_one]
    returned. *)
Theorem update_card_without_card card_id o card user d :
  user ∈ (Auth.username <$> Cards.users d) → ObjectId card_id = Some o →
  Cards.encodable card = true →
  (∀ c, c ∈ Cards.cards d → Cards.Doc._id c ≠ o) →
  Cards.update_card ObjectId str card_id card user d =
    (Cards.Throw Cards.TypeError, d).
Proof.
  intros Hu Ho Henc Hno. apply unknown_user_false in Hu.
  unfold Cards.update_card. rewrite Hu, Ho, Henc. cbn.
  rewrite update_one_no_match by (intros c Hc [Hid _]; by apply (Hno c)).
  rewrite with_cards_same.
  by rewrite (proj2 (find_one_is_None _ _) Hno).
Qed.

(** X13. When the first card with the given id belongs to the user,
    [update_card] sets its date and the title and counter that were entered,
    keeps the title and counter that were not, and keeps its other fields,
    among them [is_deleted]; it returns the card as updated.  A card that
    was marked deleted is updated all the same. *)
Theorem update_card_of_owner card_id o card user d c :
  user ∈ (Auth.username <$> Cards.users d) → ObjectId card_id = Some o →
  Cards.encodable card = true →
  Mongo.find_one (fun c => Cards.Doc._id c = o) (Cards.cards d) = Some c →
  Cards.Doc.user c = user →
  (Cards.update_card ObjectId str card_id card user d).1 =
    Cards.Return
      (inr {| Cards.View.id := str o;
              Cards.View.title :=
                match Cards.UpdateCard.title card with
                | Some title => title
                | None => Cards.Doc.title c
                end;
              Cards.View.date := Cards.UpdateCard.date card;
              Cards.View.counter :=
                match Cards.UpdateCard.counter card with
                | Some counter => counter
                | None => Cards.Doc.counter c
                end;
              Cards.View.user := user |}) ∧
  Mongo.find_one (fun c => Cards.Doc._id c = o)
    (Cards.cards (Cards.update_card ObjectId str card_id card user d).2) =
    Some {| Cards.Doc._id := o;
            Cards.Doc.title :=
              match Cards.UpdateCard.title card with
              | Some title => title
              | None => Cards.Doc.title c
              end;
            Cards.Doc.date := Cards.UpdateCard.date card;
            Cards.Doc.counter :=
              match Cards.UpdateCard.counter card with
              | Some counter => counter
              | None => Cards.Doc.counter c
              end;
            Cards.Doc.user := user;
            Cards.Doc.is_deleted := Cards.Doc.is_deleted c;
            Cards.Doc.viewed := Cards.Doc.viewed c |}.
Proof.
  intros Hu Ho Henc Hfind Hown. apply unknown_user_false in Hu.
  assert (Hid : Cards.Doc._id c = o) by (by apply find_one_is_Some in Hfind as [? _]).
  assert (Hnew : Mongo.find_one (fun c => Cards.Doc._id c = o)
            (Mongo.update_one (Cards.owned o user) (Cards.set_fields card) (Cards.cards d)) =
            Some (Cards.set_fields card c)).
  { apply (update_one_first (Cards.owned o user)); [by intros ? []|done|done|by split]. }
  unfold Cards.update_card. rewrite Hu, Ho, Henc. cbn. rewrite Hnew. cbn.
  split.
  - unfold Cards.view, Cards.set_fields. cbn. rewrite Hid, Hown.
    by destruct (Cards.UpdateCard.title card), (Cards.UpdateCard.counter card).
  - rewrite ?Hnew. unfold Cards.set_fields. rewrite Hid, Hown.
    by destruct (Cards.UpdateCard.title card), (Cards.UpdateCard.counter card).
Qed.

(** X14. A date beyond the eight bytes of a BSON integer makes the driver
    raise inside the [try]: [update_card] answers 404 "non-existent card" and
    changes nothing, whether or not the card exists. *)
Theorem update_card_date_out_of_range card_id card user d :
  user ∈ (Auth.username <$> Cards.users d) →
  (Cards.UpdateCard.date card < - 2 ^ 63 ∨ 2 ^ 63 ≤ Cards.UpdateCard.date card)%Z →
  Cards.update_card ObjectId str card_id card user d =
    (Cards.Return (inl Cards.non_existent_card), d).
Proof.
  intros Hu Hrange. apply unknown_user_false in Hu.
  unfold Cards.update_card. rewrite Hu.
  destruct (ObjectId card_id) as [o|]; [|done].
  unfold Cards.encodable, Mongo.bson_int.
  rewrite bool_decide_eq_false_2 by lia. done.
Qed.

(** X15. [update_card] adds and removes no card and never changes the id,
    the owner or the [is_deleted] of a card; users and statistics are left
    as they were. *)
Theorem update_card_frame card_id card user d :
  Cards.users (Cards.update_card ObjectId str card_id card user d).2 = Cards.users d ∧
  Cards.stats (Cards.update_card ObjectId str card_id card user d).2 = Cards.stats d ∧
  Forall2 (fun c c' =>
             Cards.Doc._id c' = Cards.Doc._id c ∧ Cards.Doc.user c' = Cards.Doc.user c ∧
             Cards.Doc.is_deleted c' = Cards.Doc.is_deleted c ∧
             (c' ≠ c → Cards.Doc.user c = user ∧ ObjectId card_id = Some (Cards.Doc._id c)))
          (Cards.cards d)
          (Cards.cards (Cards.update_card ObjectId str card_id card user d).2).
Proof.
  assert (Hsame : Forall2 (fun c c' =>
             Cards.Doc._id c' = Cards.Doc._id c ∧ Cards.Doc.user c' = Cards.Doc.user c ∧
             Cards.Doc.is_deleted c' = Cards.Doc.is_deleted c ∧
             (c' ≠ c → Cards.Doc.user c = user ∧ ObjectId card_id = Some (Cards.Doc._id c)))
          (Cards.cards d) (Cards.cards d)).
  { apply Forall_Forall2_diag, Forall_forall. by intros c _. }
  unfold Cards.update_card.
  destruct (Cards.unknown_user user d); [done|].
  destruct (ObjectId card_id) as [o|]; [|done].
  destruct (Cards.encodable card); [|done]. cbn.
  assert (Hupd : Forall2 (fun c c' =>
             Cards.Doc._id c' = Cards.Doc._id c ∧ Cards.Doc.user c' = Cards.Doc.user c ∧
             Cards.Doc.is_deleted c' = Cards.Doc.is_deleted c ∧
             (c' ≠ c → Cards.Doc.user c = user ∧ Some o = Some (Cards.Doc._id c)))
          (Cards.cards d)
          (Mongo.update_one (Cards.owned o user) (Cards.set_fields card) (Cards.cards d))).
  { eapply Forall2_impl; [apply update_one_pointwise|].
    intros c c' [->|[[Hid Hown] ->]]; [done|]. cbn. by rewrite Hid. }
  by destruct (Mongo.find_one _ _).
Qed.

End CardFacts.

Section StatFacts.

Implicit Types (s : list (string * Cards.value)) (k : string) (d : Cards.db).

Lemma field_is_key k s v : Cards.field k s = Some v → k ∈ s.*1.
Proof.
  induction s as [|[k' v'] s IH]; cbn; [done|].
  destruct (decide (k' = k)) as [->|]; [intros _; left|].
  intros Hf. right. auto.
Qed.

Lemma filter_keeps_all {A} (P : A → Prop) `{!∀ x, Decision (P x)} (l : list A) :
  (∀ x, x ∈ l → P x) → filter P l = l.
Proof.
  induction l as [|x l IH]; intros Hall; [done|].
  rewrite filter_cons_True by (apply Hall; left).
  rewrite IH; [done|]. intros y Hy. apply Hall. by right.
Qed.

Lemma key_of_filter (P : string * Cards.value → Prop) `{!∀ x, Decision (P x)} k s :
  k ∈ (filter P s).*1 → k ∈ s.*1.
Proof.
  rewrite !list_elem_of_fmap. intros (p & -> & Hp).
  apply list_elem_of_filter in Hp as [_ Hp]. by exists p.
Qed.

Lemma keys_of_filter_NoDup (P : string * Cards.value → Prop) `{!∀ x, Decision (P x)} s :
  NoDup s.*1 → NoDup (filter P s).*1.
Proof.
  induction s as [|p s IH]; [done|].
  rewrite fmap_cons, NoDup_cons. intros [Hp Hs]. rewrite filter_cons.
  destruct (decide (P p)); [|auto].
  rewrite fmap_cons. apply NoDup_cons. split; [|auto].
  intros Hin. apply Hp. by eapply key_of_filter.
Qed.

(** On a dictionary, [del d[k]] of a key that is there removes its entry and
    keeps the others in order. *)
Lemma del_key k s :
  k ∈ s.*1 → NoDup s.*1 → Cards.del k s = Cards.Return (filter (fun p => p.1 ≠ k) s).
Proof.
  induction s as [|[k' v] s IH]; intros Hin Hnodup.
  - by apply elem_of_nil in Hin.
  - rewrite fmap_cons in Hin, Hnodup. cbn [fst] in Hin, Hnodup.
    apply NoDup_cons in Hnodup as [Hk' Hnodup].
    cbn [Cards.del]. destruct (decide (k' = k)) as [->|Hne].
    + rewrite filter_cons_False by (cbn; tauto).
      rewrite filter_keeps_all; [done|].
      intros p Hp Heq. apply Hk'. rewrite <- Heq.
      apply list_elem_of_fmap. by exists p.
    + apply elem_of_cons in Hin as [Heq|Hin]; [congruence|].
      rewrite filter_cons_True by done. by rewrite IH by done.
Qed.

(** X16. [get_stat] answers 404 "non-existent card" when no document of
    [stats] is about the card. *)
Theorem get_stat_unknown_card card_id d :
  (∀ s, s ∈ Cards.stats d → Cards.field "card" s ≠ Some (Cards.VStr card_id)) →
  Cards.get_stat card_id d = Cards.Return (inl Cards.non_existent_card).
Proof.
  intros Hno. unfold Cards.get_stat, Cards.find_stat.
  by rewrite (proj2 (find_one_is_None _ _) Hno).
Qed.

(** X17. For the first document of [stats] about the card, [get_stat]
    returns one item for each of its fields other than ['_id'] and ['card'],
    in the order of the document, with the key as date and the value as
    counter. *)
Theorem get_stat_lists_fields card_id d s :
  Cards.find_stat card_id d = Some s →
  NoDup s.*1 → "_id" ∈ s.*1 →
  Cards.get_stat card_id d =
    Cards.Return
      (inr (map (fun p => {| Cards.Item.date := p.1; Cards.Item.counter := p.2 |})
              (filter (fun p => p.1 ≠ "card" ∧ p.1 ≠ "_id") s))).
Proof.
  intros Hfind Hnodup Hid. unfold Cards.get_stat. rewrite Hfind.
  apply find_one_is_Some in Hfind as [Hcard _]. apply field_is_key in Hcard.
  rewrite del_key by done. cbn.
  rewrite del_key.
  - cbn. rewrite list_filter_filter. do 2 f_equal.
    apply map_ext. by intros [key value].
  - apply list_elem_of_fmap in Hcard as (p & Hp & Hin).
    apply list_elem_of_fmap. exists p. split; [done|].
    apply list_elem_of_filter. split; [|done]. by rewrite <- Hp.
  - by apply keys_of_filter_NoDup.
Qed.

End StatFacts.

Section AddCardFacts.

Variable ObjectId : string → option Cards.oid.
Variable str : Cards.oid → string.

Implicit Types (d : Cards.db) (c : Cards.Doc.t) (user : string).

Lemma update_one_app_no_match {D} (P : D → Prop) `{!∀ x, Decision (P x)}
    (f : D → D) (coll coll' : list D) :
  (∀ x, x ∈ coll → ¬ P x) →
  Mongo.update_one P f (coll ++ coll') = coll ++ Mongo.update_one P f coll'.
Proof.
  induction coll as [|x coll IH]; intros Hno; cbn; [done|].
  rewrite decide_False by (apply Hno; left).
  rewrite IH; [done|]. intros y Hy. apply Hno. by right.
Qed.

(** X18. After [add_card] stored a card, [get_stat] for the id it returned
    answers with the empty list, provided no older document of [stats] is
    about that id. *)
Theorem add_card_then_get_stat now new_id stat_id card user d :
  user ∈ (Auth.username <$> Cards.users d) →
  Mongo.bson_int (Cards.Card.date card) = true →
  Mongo.bson_int (Cards.Card.counter card) = true →
  (∀ s, s ∈ Cards.stats d → Cards.field "card" s ≠ Some (Cards.VStr (str new_id))) →
  Cards.get_stat (str new_id)
    (Cards.add_card str now new_id stat_id card user d).2 = Cards.Return (inr []).
Proof.
  intros Hu Hdate Hcounter Hfresh. apply unknown_user_false in Hu.
  unfold Cards.add_card. rewrite Hu, Hdate, Hcounter. cbn.
  unfold Cards.get_stat, Cards.find_stat, Mongo.insert_one. cbn.
  rewrite find_one_app_None by (by apply find_one_is_None).
  rewrite find_one_cons_True by reflexivity.
  reflexivity.
Qed.

(** X19. A card that [add_card] stored under a new id can be deleted by its
    owner through the id that was returned: [delete_card] marks that card,
    the last of the collection, and no other. *)
Theorem add_card_then_delete_card now new_id stat_id card user d :
  user ∈ (Auth.username <$> Cards.users d) →
  Mongo.bson_int (Cards.Card.date card) = true →
  Mongo.bson_int (Cards.Card.counter card) = true →
  (∀ c, c ∈ Cards.cards d → Cards.Doc._id c ≠ new_id) →
  ObjectId (str new_id) = Some new_id →
  Cards.cards
    (Cards.delete_card ObjectId (str new_id) user
       (Cards.add_card str now new_id stat_id card user d).2).2 =
  Cards.cards d ++
  [ {| Cards.Doc._id := new_id; Cards.Doc.title := Some (Cards.Card.title card);
       Cards.Doc.date := Cards.Card.date card;
       Cards.Doc.counter := Some (Cards.Card.counter card);
       Cards.Doc.user := user; Cards.Doc.is_deleted := true;
       Cards.Doc.viewed := now |} ].
Proof.
  intros Hu Hdate Hcounter Hfresh Hid. pose proof Hu as Hu'.
  apply unknown_user_false in Hu.
  unfold Cards.add_card. rewrite Hu, Hdate, Hcounter. cbn.
  unfold Cards.delete_card, Cards.unknown_user. cbn.
  unfold Cards.unknown_user in Hu. rewrite Hu, Hid. cbn.
  unfold Mongo.insert_one.
  rewrite update_one_app_no_match by (intros c Hc [? _]; by apply (Hfresh c)).
  cbn. by rewrite decide_True by done.
Qed.

End AddCardFacts.

(** ** The card endpoints on sample data *)

Lemma unknown_user_turned_away_witness :
  (∀ now new_id stat_id card,
     Cards.add_card Fixture.str now new_id stat_id card "Andrey" Fixture.db =
       (Cards.Return (inl Cards.user_not_found), Fixture.db)) ∧
  (∀ card_id,
     Cards.delete_card Fixture.ObjectId card_id "Andrey" Fixture.db =
       (Cards.user_not_found, Fixture.db)) ∧
  (∀ card_id card,
     Cards.update_card Fixture.ObjectId Fixture.str card_id card "Andrey" Fixture.db =
       (Cards.Return (inl Cards.user_not_found), Fixture.db)).
Proof.
  apply unknown_user_turned_away.
  apply (bool_decide_unpack _). by vm_compute.
Defined.

Lemma delete_card_reports_deleted_witness :
  Cards.delete_card Fixture.ObjectId "00000000000000000000000b" "Nikita" Fixture.db =
  (JSONResponse 200 (message_body "deleted"), Fixture.db).
Proof.
  destruct (delete_card_reports_deleted Fixture.ObjectId
              "00000000000000000000000b" 11%N "Nikita" Fixture.db) as [Hanswer Hsame].
  - apply (bool_decide_unpack _). by vm_compute.
  - reflexivity.
  - rewrite (surjective_pairing (Cards.delete_card _ _ _ _)).
    rewrite Hanswer, Hsame; [done|].
    rewrite <- Forall_forall. apply (bool_decide_unpack _). by vm_compute.
Defined.

Lemma delete_card_marks_card_witness :
  Mongo.find_one (fun c => Cards.Doc._id c = 10%N)
    (Cards.cards
       (Cards.delete_card Fixture.ObjectId "00000000000000000000000a" "Nikita"
          Fixture.db).2) =
  Some {| Cards.Doc._id := 10%N; Cards.Doc.title := Some "word";
          Cards.Doc.date := 1668698229%Z; Cards.Doc.counter := Some 3%Z;
          Cards.Doc.user := "Nikita"; Cards.Doc.is_deleted := true;
          Cards.Doc.viewed := 0%Z |}.
Proof.
  apply (delete_card_marks_card Fixture.ObjectId
           "00000000000000000000000a" 10%N "Nikita" Fixture.db
           (Fixture.card 10%N "Nikita")).
  - apply (bool_decide_unpack _). by vm_compute.
  - reflexivity.
  - reflexivity.
  - reflexivity.
Defined.

Lemma update_card_returns_foreign_card_witness :
  Cards.update_card Fixture.ObjectId Fixture.str "00000000000000000000000b"
    Fixture.new_date "Nikita" Fixture.db =
  (Cards.Return (inr (Cards.view Fixture.str (Fixture.card 11%N "Viktor"))), Fixture.db).
Proof.
  apply (update_card_returns_foreign_card Fixture.ObjectId Fixture.str
           "00000000000000000000000b" 11%N).
  - apply (bool_decide_unpack _). by vm_compute.
  - reflexivity.
  - reflexivity.
  - reflexivity.
  - rewrite <- Forall_forall. apply (bool_decide_unpack _). by vm_compute.
Defined.

Lemma update_card_without_card_witness :
  Cards.update_card Fixture.ObjectId Fixture.str "00000000000000000000000b"
    Fixture.new_date "Nikita"
    (Cards.with_cards [Fixture.card 10%N "Nikita"] Fixture.db) =
  (Cards.Throw Cards.TypeError,
   Cards.with_cards [Fixture.card 10%N "Nikita"] Fixture.db).
Proof.
  apply (update_card_without_card Fixture.ObjectId Fixture.str
           "00000000000000000000000b" 11%N).
  - apply (bool_decide_unpack _). by vm_compute.
  - reflexivity.
  - reflexivity.
  - rewrite <- Forall_forall. apply (bool_decide_unpack _). by vm_compute.
Defined.

Lemma update_card_of_owner_witness :
  (Cards.update_card Fixture.ObjectId Fixture.str "00000000000000000000000a"
     Fixture.new_title "Nikita" Fixture.db).1 =
  Cards.Return
    (inr {| Cards.View.id := "00000000000000000000000a";
            Cards.View.title := Some "mot";
            Cards.View.date := 1668700000%Z;
            Cards.View.counter := Some 3%Z;
            Cards.View.user := "Nikita" |}) ∧
  Mongo.find_one (fun c => Cards.Doc._id c = 10%N)
    (Cards.cards
       (Cards.update_card Fixture.ObjectId Fixture.str "00000000000000000000000a"
          Fixture.new_title "Nikita" Fixture.db).2) =
  Some {| Cards.Doc._id := 10%N; Cards.Doc.title := Some "mot";
          Cards.Doc.date := 1668700000%Z; Cards.Doc.counter := Some 3%Z;
          Cards.Doc.user := "Nikita"; Cards.Doc.is_deleted := false;
          Cards.Doc.viewed := 0%Z |}.
Proof.
  apply (update_card_of_owner Fixture.ObjectId Fixture.str
           "00000000000000000000000a" 10%N Fixture.new_title "Nikita" Fixture.db
           (Fixture.card 10%N "Nikita")).
  - apply (bool_decide_unpack _). by vm_compute.
  - reflexivity.
  - reflexivity.
  - reflexivity.
  - reflexivity.
Defined.

Lemma update_card_date_out_of_range_witness :
  Cards.update_card Fixture.ObjectId Fixture.str "00000000000000000000000a"
    {| Cards.UpdateCard.title := None; Cards.UpdateCard.counter := None;
       Cards.UpdateCard.date := 2 ^ 63 |} "Nikita" Fixture.db =
  (Cards.Return (inl Cards.non_existent_card), Fixture.db).
Proof.
  apply update_card_date_out_of_range.
  - apply (bool_decide_unpack _). by vm_compute.
  - right. reflexivity.
Defined.

Lemma get_stat_unknown_card_witness :
  Cards.get_stat "00000000000000000000000b" Fixture.db =
  Cards.Return (inl Cards.non_existent_card).
Proof.
  apply get_stat_unknown_card.
  rewrite <- Forall_forall. apply (bool_decide_unpack _). by vm_compute.
Defined.

Lemma get_stat_lists_fields_witness :
  Cards.get_stat "00000000000000000000000a" Fixture.db =
  Cards.Return
    (inr [ {| Cards.Item.date := "2022-11-17"; Cards.Item.counter := Cards.VInt 3 |};
           {| Cards.Item.date := "2022-11-18"; Cards.Item.counter := Cards.VInt 0 |} ]).
Proof.
  rewrite (get_stat_lists_fields "00000000000000000000000a" Fixture.db
             (Fixture.stat_of 10%N)).
  - reflexivity.
  - reflexivity.
  - apply (bool_decide_unpack _). by vm_compute.
  - apply (bool_decide_unpack _). by vm_compute.
Defined.

Lemma add_card_then_get_stat_witness :
  Cards.get_stat (Fixture.str 11%N)
    (Cards.add_card Fixture.str 0%Z 11%N 78%N
       {| Cards.Card.title := "mot"; Cards.Card.date := 1668700000%Z;
          Cards.Card.counter := 0%Z |} "Viktor" Fixture.db).2 =
  Cards.Return (inr []).
Proof.
  apply add_card_then_get_stat.
  - apply (bool_decide_unpack _). by vm_compute.
  - reflexivity.
  - reflexivity.
  - rewrite <- Forall_forall. apply (bool_decide_unpack _). by vm_compute.
Defined.

Lemma add_card_then_delete_card_witness :
  Cards.cards
    (Cards.delete_card Fixture.ObjectId (Fixture.str 11%N) "Nikita"
       (Cards.add_card Fixture.str 5%Z 11%N 78%N
          {| Cards.Card.title := "mot"; Cards.Card.date := 1668700000%Z;
             Cards.Card.counter := 0%Z |} "Nikita"
          (Cards.with_cards [Fixture.card 10%N "Nikita"] Fixture.db)).2).2 =
  [ Fixture.card 10%N "Nikita";
    {| Cards.Doc._id := 11%N; Cards.Doc.title := Some "mot";
       Cards.Doc.date := 1668700000%Z; Cards.Doc.counter := Some 0%Z;
       Cards.Doc.user := "Nikita"; Cards.Doc.is_deleted := true;
       Cards.Doc.viewed := 5%Z |} ].
Proof.
  rewrite (add_card_then_delete_card Fixture.ObjectId Fixture.str 5%Z 11%N 78%N _ "Nikita"
             (Cards.with_cards [Fixture.card 10%N "Nikita"] Fixture.db)).
  - reflexivity.
  - apply (bool_decide_unpack _). by vm_compute.
  - reflexivity.
  - reflexivity.
  - rewrite <- Forall_forall. apply (bool_decide_unpack _). by vm_compute.
  - reflexivity.
Defined.

(** ** More on the chat endpoints and the handler *)

Section ChatFacts.

Implicit Types (chat : room) (db : list room) (user : string).



Lemma for_each_fails {A B} (f : A → outcome B) (l : list A) (x : A) :
  x ∈ l → (∃ e, f x = Raise e) → ∃ e, for_each f l = Raise e.
Proof.
  intros Hin Hx. induction l as [|y l IH]; [by apply elem_of_nil in Hin|].
  cbn. destruct (f y) as [b|e] eqn:Hy; cbn; [|by eexists].
  apply elem_of_cons in Hin as [->|Hin].
  - destruct Hx as [e Hx]. congruence.
  - destruct (IH Hin) as [e ->]. cbn. by eexists.
Qed.

Lemma chat_users_entry_alone user chat :
  Forall (fun el => el = user) (members chat) →
  ∃ e, chat_users_entry user chat = Raise e.
Proof.
  intros Hall.
  assert (Hnil : filter (fun el => el ≠ user) (members chat) = []).
  { destruct (filter (fun el => el ≠ user) (members chat)) as [|el l] eqn:E; [done|].
    assert (Hel : el ∈ filter (fun el => el ≠ user) (members chat)) by (rewrite E; left).
    apply list_elem_of_filter in Hel as [Hne Hin].
    rewrite Forall_forall in Hall. by destruct (Hne (Hall el Hin)). }
  unfold chat_users_entry. rewrite Hnil.
  destruct (last_item (messages chat)) as [msg|e]; cbn; [|by eexists].
  destruct (getitem msg "from") as [from|e]; cbn; [|by eexists].
  destruct (delitem "from" _) as [m1|e]; cbn; [|by eexists].
  destruct (delitem "to" m1) as [m2|e]; cbn; by eexists.
Qed.

End ChatFacts.


(** X21. For a requester who is a member of no room, [chat_users] returns
    the empty list, whatever the rooms of the others hold. *)
Theorem chat_users_without_rooms (db : list room) (user : string) :
  (∀ chat, chat ∈ db → user ∉ members chat) → chat_users db user = Ok [].
Proof.
  induction db as [|chat db IH]; intros Hno; [done|].
  rewrite chat_users_cons_skip by (apply Hno; left).
  apply IH. intros c Hc. apply Hno. by right.
Qed.

Lemma chat_users_without_rooms_witness :
  chat_users [ {| members := ["carol"; "dave"]; messages := [] |} ] "alice" = Ok [].
Proof.
  apply chat_users_without_rooms.
  rewrite <- Forall_forall. apply (bool_decide_unpack _). by vm_compute.
Defined.



(** X23. A room whose members are all the requester (a chat with oneself)
    makes [chat_users] fail for that requester: the other member it looks
    for is not there. *)
Theorem chat_users_room_with_oneself (db : list room) (user : string) (chat : room) :
  chat ∈ db → user ∈ members chat → Forall (fun el => el = user) (members chat) →
  ∃ e, chat_users db user = Raise e.
Proof.
  intros Hin Hu Hall. unfold chat_users.
  apply (for_each_fails _ _ chat).
  - apply list_elem_of_filter. split; [by apply members_all_one|done].
  - by apply chat_users_entry_alone.
Qed.

Lemma chat_users_room_with_oneself_witness :
  let db := [ {| members := ["alice"; "bob"];
                 messages := [Sample.message "alice" "bob" "hi"] |};
              {| members := ["alice"; "alice"];
                 messages := [Sample.message "alice" "alice" "note"] |} ] in
  chat_users db "alice" = Raise IndexError ∧ ∃ e, chat_users db "alice" = Raise e.
Proof.
  intros db. split; [by vm_compute|].
  apply (chat_users_room_with_oneself db "alice"
           {| members := ["alice"; "alice"];
              messages := [Sample.message "alice" "alice" "note"] |}).
  - right. left.
  - left.
  - by repeat constructor.
Defined.

Section HandlerMore.

Context `{Collaborators}.

Implicit Types (ws : handle) (s : state) (data : dict).

(** X24. A frame that has a token is an authorization frame, whatever else
    it carries and whether or not the connection is authorized: when it is
    accepted the connection has an entry, the chat rooms are as before, and
    nothing is handed to [send_personal_message]; the last two also when the
    token is refused or the confirmation cannot be sent. *)
Theorem token_frame_is_no_send ws s s' data evs raised :
  is_Some (data !! "token") →
  on_frame ws (JObj data) s = (s', evs, raised) →
  (raised = None → is_authorized ws s' = true) ∧ chat_rooms s' = chat_rooms s ∧
  ∀ receiver sender message,
    Call_send_personal_message ws receiver sender message ∉ evs.
Proof.
  intros [token Htok] Hf.
  destruct (decode_token token) as [user|e] eqn:Hdec.
  - rewrite (on_frame_token _ _ _ _ _ Htok Hdec) in Hf.
    destruct (sent_cases ws "successful authorization"
                (append_authorized {| username := user; websocket := ws |} s))
      as [[_ Hs]|(e & _ & Hs)]; rewrite Hs in Hf; injection Hf as <- <- <-.
    + split; [|split; [done|]].
      * intros _. apply (is_authorized_entry _ _ user). cbn.
        apply elem_of_app. right. left.
      * intros r sd m Hin.
        apply elem_of_cons in Hin as [?|Hin]; [done|]. by apply elem_of_nil in Hin.
    + split; [done|]. split; [done|]. intros r sd m Hin. by apply elem_of_nil in Hin.
  - rewrite (on_frame_token_refused _ _ _ _ _ Htok Hdec) in Hf.
    injection Hf as <- <- <-.
    split; [done|]. split; [done|]. intros r sd m Hin. by apply elem_of_nil in Hin.
Qed.

(** X25. Frames handled in two batches give what they give in one: the
    second batch goes on from the state of the first while the handler is
    still receiving, and is not read once the handler has ended. *)
Theorem loop_app ws (inputs inputs' : list (outcome json)) s :
  loop ws (inputs ++ inputs') s =
    match (loop ws inputs s).2 with
    | Receiving =>
        ((loop ws inputs' (loop ws inputs s).1.1).1.1,
         (loop ws inputs s).1.2 ++ (loop ws inputs' (loop ws inputs s).1.1).1.2,
         (loop ws inputs' (loop ws inputs s).1.1).2)
    | _ => loop ws inputs s
    end.
Proof.
  revert s. induction inputs as [|received inputs IH]; intros s.
  - cbn. by destruct (loop ws inputs' s) as [[? ?] ?].
  - rewrite <- app_comm_cons.
    destruct (turn ws received s) as [[s' evs] [e|]] eqn:Ht.
    + destruct (decide (e = WebSocketDisconnect)) as [->|He].
      * rewrite !(loop_cons_disconnect _ _ _ _ _ _ Ht). by destruct (disconnect ws s').2.
      * by rewrite !(loop_cons_Some _ _ _ _ _ _ _ Ht He).
    + rewrite !(loop_cons_None _ _ _ _ _ _ Ht), IH.
      destruct (loop ws inputs s') as [[s1 evs1] st1]. cbn [fst snd].
      destruct st1; [|done..]. cbn [fst snd]. by rewrite app_assoc.
Qed.

End HandlerMore.

Lemma token_frame_is_no_send_witness :
  is_authorized 1
    {| active_connections := [1; 2];
       authorized_connections :=
         [ {| username := "mallory"; websocket := 1 |};
           {| username := "bob"; websocket := 2 |};
           {| username := "alice"; websocket := 1 |} ];
       chat_rooms := [] |} = true ∧
  chat_rooms
    {| active_connections := [1; 2];
       authorized_connections :=
         [ {| username := "mallory"; websocket := 1 |};
           {| username := "bob"; websocket := 2 |};
           {| username := "alice"; websocket := 1 |} ];
       chat_rooms := [] |} = chat_rooms Sample.mallory_and_bob ∧
  ∀ receiver sender message,
    Call_send_personal_message 1 receiver sender message
    ∉ [Send_text 1 "successful authorization"].
Proof.
  destruct (token_frame_is_no_send (H := Sample.collaborators) 1 Sample.mallory_and_bob
              {| active_connections := [1; 2];
                 authorized_connections :=
                   [ {| username := "mallory"; websocket := 1 |};
                     {| username := "bob"; websocket := 2 |};
                     {| username := "alice"; websocket := 1 |} ];
                 chat_rooms := [] |}
              (<["token" := JStr "t-alice"]> (Sample.send_data "bob" "alice" "hi"))
              [Send_text 1 "successful authorization"] None)
    as (Hauth & Hrooms & Hsend).
  - by eexists.
  - by vm_compute.
  - split; [by apply Hauth|]. by split.
Defined.

(** ** The listing of the cards *)

Section GetCardsFacts.

Variable ObjectId : string → option Cards.oid.
Variable str : Cards.oid → string.
Variable hours_between : Cards.datetime → Cards.datetime → Z.
Variable day : Cards.datetime → Z.
Variable days_between : Cards.datetime → Cards.datetime → Z.
Variable date_string : Cards.datetime → string.
Variable plus_days : Cards.datetime → Z → Cards.datetime.
Variable sort_date_descending : list Cards.Doc.t → list Cards.Doc.t.
Variable clock : nat → Cards.datetime.

Implicit Types (d : Cards.db) (c : Cards.Doc.t) (user : string)
  (cursor : list Cards.Doc.t).

Local Abbreviation rolls_over := (Cards.rolls_over hours_between day).
Local Abbreviation view_card :=
  (Cards.view_card str hours_between day days_between date_string plus_days).
Local Abbreviation view_cards :=
  (Cards.view_cards str hours_between day days_between date_string plus_days clock).
Local Abbreviation cursor_of := (Cards.cursor_of sort_date_descending).
Local Abbreviation get_cards :=
  (Cards.get_cards str hours_between day days_between date_string plus_days
     sort_date_descending clock).

(** The card as the turn at the time [now] returns it. *)
Local Abbreviation returned now c :=
  (Cards.view str (if rolls_over now c then Cards.set_counter 0 c else c)).

Lemma view_cards_views k cursor d :
  (view_cards k cursor d).1 = imap (fun i c => returned (clock (k + i)) c) cursor.
Proof.
  revert k d. induction cursor as [|c cursor IH]; intros k d; [done|].
  cbn [Cards.view_cards].
  destruct (view_card (clock k) c d) as [v d1] eqn:Hv.
  specialize (IH (S k) d1).
  destruct (view_cards (S k) cursor d1) as [vs d2]. cbn [fst] in IH |- *.
  rewrite imap_cons, Nat.add_0_r. f_equal.
  - by apply (f_equal fst) in Hv.
  - rewrite IH. apply imap_ext. intros i c' _. cbn. by rewrite Nat.add_succ_r.
Qed.

Lemma same_card_refl c : Cards.same_card c c.
Proof. by repeat split. Qed.

Lemma same_card_trans c1 c2 c3 :
  Cards.same_card c1 c2 → Cards.same_card c2 c3 → Cards.same_card c1 c3.
Proof.
  unfold Cards.same_card. intros (? & ? & ? & ? & ?) (? & ? & ? & ? & ?).
  repeat split; congruence.
Qed.

Lemma update_one_same_card (P : Cards.Doc.t → Prop) `{!∀ c, Decision (P c)}
    (f : Cards.Doc.t → Cards.Doc.t) (coll : list Cards.Doc.t) :
  (∀ c, Cards.same_card c (f c)) →
  Forall2 Cards.same_card coll (Mongo.update_one P f coll).
Proof.
  intros Hf. eapply Forall2_impl; [apply update_one_pointwise|].
  intros c c' [->|[_ ->]]; [apply same_card_refl|apply Hf].
Qed.

Lemma Forall2_same_card_trans (l1 l2 l3 : list Cards.Doc.t) :
  Forall2 Cards.same_card l1 l2 → Forall2 Cards.same_card l2 l3 →
  Forall2 Cards.same_card l1 l3.
Proof.
  intros H12. revert l3. induction H12 as [|c1 c2 l1 l2 Hc _ IH]; intros l3 H23.
  - by inversion H23.
  - inversion H23 as [|? c3 ? l3' Hc' H23']; subst.
    constructor; [by eapply same_card_trans|by apply IH].
Qed.

Lemma view_card_frame now c d :
  Cards.users (view_card now c d).2 = Cards.users d ∧
  Forall2 Cards.same_card (Cards.cards d) (Cards.cards (view_card now c d).2).
Proof.
  unfold Cards.view_card. cbn.
  destruct (rolls_over now c); cbn; (split; [done|]).
  - eapply Forall2_same_card_trans;
      last (apply update_one_same_card; by intros ?).
    apply update_one_same_card. by intros ?.
  - apply update_one_same_card. by intros ?.
Qed.

Lemma view_cards_frame k cursor d :
  Cards.users (view_cards k cursor d).2 = Cards.users d ∧
  Forall2 Cards.same_card (Cards.cards d) (Cards.cards (view_cards k cursor d).2).
Proof.
  revert k d. induction cursor as [|c cursor IH]; intros k d.
  - split; [done|]. apply Forall_Forall2_diag, Forall_forall.
    intros ? _. apply same_card_refl.
  - cbn [Cards.view_cards].
    pose proof (view_card_frame (clock k) c d) as [Hu1 Hc1].
    destruct (view_card (clock k) c d) as [v d1].
    destruct (IH (S k) d1) as [Hu2 Hc2].
    destruct (view_cards (S k) cursor d1) as [vs d2]. cbn in *.
    split; [congruence|]. by eapply Forall2_same_card_trans.
Qed.

Lemma view_cards_stats k cursor d :
  (∀ i c, cursor !! i = Some c → rolls_over (clock (k + i)) c = false) →
  Cards.stats (view_cards k cursor d).2 = Cards.stats d.
Proof.
  revert k d. induction cursor as [|c cursor IH]; intros k d Hno; [done|].
  cbn [Cards.view_cards].
  assert (Hc : rolls_over (clock k) c = false).
  { rewrite <- (Nat.add_0_r k). by apply Hno. }
  assert (H1 : Cards.stats (view_card (clock k) c d).2 = Cards.stats d).
  { unfold Cards.view_card. by rewrite Hc. }
  destruct (view_card (clock k) c d) as [v d1].
  specialize (IH (S k) d1).
  destruct (view_cards (S k) cursor d1) as [vs d2]. cbn in *.
  rewrite IH; [done|]. intros i c' Hi.
  rewrite <- Nat.add_succ_r. by apply Hno.
Qed.

Lemma get_cards_known user d :
  user ∈ (Auth.username <$> Cards.users d) →
  get_cards user d =
    (inr (view_cards 0 (cursor_of user d) d).1, (view_cards 0 (cursor_of user d) d).2).
Proof.
  intros Hu. apply unknown_user_false in Hu.
  unfold Cards.get_cards. rewrite Hu.
  by destruct (view_cards 0 (cursor_of user d) d).
Qed.

(** X26. For a known user, [get_cards] lists the cards of that user that
    are not marked deleted, and only those: each item has the id, title,
    date and owner of such a card, and each such card has its item.  The
    sort is only taken to permute the cards. *)
Theorem get_cards_lists_own_cards user d :
  user ∈ (Auth.username <$> Cards.users d) →
  (∀ l, sort_date_descending l ≡ₚ l) →
  ∃ vs, (get_cards user d).1 = inr vs ∧
    (∀ v, v ∈ vs →
       ∃ c, c ∈ Cards.cards d ∧ Cards.Doc.is_deleted c = false ∧
            Cards.Doc.user c = user ∧ Cards.View.id v = str (Cards.Doc._id c) ∧
            Cards.View.title v = Cards.Doc.title c ∧
            Cards.View.date v = Cards.Doc.date c ∧ Cards.View.user v = user) ∧
    (∀ c, c ∈ Cards.cards d → Cards.Doc.is_deleted c = false →
          Cards.Doc.user c = user →
          ∃ v, v ∈ vs ∧ Cards.View.id v = str (Cards.Doc._id c)).
Proof.
  intros Hu Hsort. rewrite (get_cards_known _ _ Hu). cbn.
  eexists. split; [reflexivity|]. rewrite view_cards_views.
  assert (Hcursor : ∀ c, c ∈ cursor_of user d ↔
            c ∈ Cards.cards d ∧ Cards.Doc.is_deleted c = false ∧ Cards.Doc.user c = user).
  { intros c. unfold Cards.cursor_of. rewrite Hsort, list_elem_of_filter.
    unfold Cards.listed. split; [by intros [[? ?] ?]|by intros (? & ? & ?)]. }
  split.
  - intros v Hv. apply elem_of_lookup_imap in Hv as (i & c & -> & Hi).
    apply list_elem_of_lookup_2, Hcursor in Hi as (Hin & Hdel & Hown).
    exists c. by destruct (rolls_over (clock (0 + i)) c).
  - intros c Hin Hdel Hown.
    assert (Hc : c ∈ cursor_of user d) by (by apply Hcursor).
    apply list_elem_of_lookup in Hc as [i Hi].
    exists (returned (clock (0 + i)) c). split.
    + apply elem_of_lookup_imap. by exists i, c.
    + by destruct (rolls_over (clock (0 + i)) c).
Qed.

Lemma delete_marks_every_match o user (coll : list Cards.Doc.t) c :
  NoDup (Cards.Doc._id <$> coll) →
  c ∈ Mongo.update_one (Cards.owned o user) Cards.set_deleted coll →
  Cards.Doc._id c = o → Cards.Doc.user c = user →
  Cards.Doc.is_deleted c = true.
Proof.
  induction coll as [|c0 coll IH]; cbn; intros Hnodup Hin Hid Hown.
  - by apply elem_of_nil in Hin.
  - apply NoDup_cons in Hnodup as [Hc0 Hnodup].
    destruct (decide (Cards.owned o user c0)) as [[Hid0 Hown0]|Hnot].
    + apply elem_of_cons in Hin as [->|Hin]; [done|].
      destruct Hc0. rewrite Hid0, <- Hid. apply list_elem_of_fmap. by exists c.
    + apply elem_of_cons in Hin as [->|Hin]; [by destruct Hnot|]. by apply IH.
Qed.

Lemma update_one_elem {D} (P : D → Prop) `{!∀ x, Decision (P x)}
    (f : D → D) (coll : list D) (x : D) :
  x ∈ Mongo.update_one P f coll → ∃ y, y ∈ coll ∧ (x = y ∨ x = f y).
Proof.
  induction coll as [|y coll IH]; cbn; intros Hin.
  - by apply elem_of_nil in Hin.
  - destruct (decide (P y)).
    + apply elem_of_cons in Hin as [->|Hin].
      * exists y. split; [left|by right].
      * exists x. split; [by right|by left].
    + apply elem_of_cons in Hin as [->|Hin].
      * exists y. split; [left|by left].
      * destruct (IH Hin) as (z & Hz & Hx). exists z. split; [by right|done].
Qed.

(** X27. After [delete_card], [get_cards] does not list a card under the
    deleted id any more.  The ids of the cards are distinct, and the string
    of the id of a card reads back as that id. *)
Theorem delete_card_then_get_cards card_id o user d vs :
  user ∈ (Auth.username <$> Cards.users d) →
  ObjectId card_id = Some o →
  (∀ c, c ∈ Cards.cards d →
        ObjectId (str (Cards.Doc._id c)) = Some (Cards.Doc._id c)) →
  NoDup (Cards.Doc._id <$> Cards.cards d) →
  (∀ l, sort_date_descending l ≡ₚ l) →
  (get_cards user (Cards.delete_card ObjectId card_id user d).2).1 = inr vs →
  ∀ v, v ∈ vs → Cards.View.id v ≠ card_id.
Proof.
  intros Hu Ho Hround Hnodup Hsort Hvs v Hv Hid.
  pose proof Hu as Hu'. apply unknown_user_false in Hu'.
  assert (Hd : (Cards.delete_card ObjectId card_id user d).2 =
               Cards.with_cards
                 (Mongo.update_one (Cards.owned o user) Cards.set_deleted (Cards.cards d)) d).
  { unfold Cards.delete_card. by rewrite Hu', Ho. }
  rewrite Hd in Hvs.
  destruct (get_cards_lists_own_cards user
              (Cards.with_cards
                 (Mongo.update_one (Cards.owned o user) Cards.set_deleted (Cards.cards d)) d))
    as (vs' & Hvs' & Honly & _); [done|done|].
  rewrite Hvs in Hvs'. injection Hvs' as <-.
  destruct (Honly v Hv) as (c & Hin & Hdel & Hown & Hcid & _).
  cbn in Hin.
  assert (Hco : Cards.Doc._id c = o).
  { destruct (update_one_elem _ _ _ _ Hin) as (c0 & Hc0 & Hc).
    assert (Hsame : Cards.Doc._id c = Cards.Doc._id c0) by (by destruct Hc as [->| ->]).
    pose proof (Hround c0 Hc0) as Hr.
    rewrite <- Hsame, <- Hcid, Hid, Ho in Hr. by injection Hr. }
  rewrite (delete_marks_every_match o user _ c Hnodup Hin Hco Hown) in Hdel. done.
Qed.

(** X28. [get_cards] adds and removes no card and changes no id, title,
    date, owner or [is_deleted] of a card: it writes counters and times of
    view only.  The users are left as they were. *)
Theorem get_cards_frame user d :
  Cards.users (get_cards user d).2 = Cards.users d ∧
  Forall2 Cards.same_card (Cards.cards d) (Cards.cards (get_cards user d).2).
Proof.
  unfold Cards.get_cards. destruct (Cards.unknown_user user d).
  - split; [done|]. apply Forall_Forall2_diag, Forall_forall.
    intros ? _. apply same_card_refl.
  - pose proof (view_cards_frame 0 (cursor_of user d) d) as Hframe.
    by destruct (view_cards 0 (cursor_of user d) d).
Qed.

Lemma rolls_over_spec now c :
  rolls_over now c =
    bool_decide ((hours_between now (Cards.Doc.viewed c) > 24)%Z ∨
                 day now ≠ day (Cards.Doc.viewed c)).
Proof.
  unfold Cards.rolls_over.
  destruct (decide (hours_between now (Cards.Doc.viewed c) > 24)%Z) as [Hh|Hh],
           (decide (day now = day (Cards.Doc.viewed c))) as [Hd|Hd].
  - rewrite (bool_decide_eq_true_2 _ Hh). cbn. symmetry.
    apply bool_decide_eq_true_2. by left.
  - rewrite (bool_decide_eq_true_2 _ Hh). cbn. symmetry.
    apply bool_decide_eq_true_2. by left.
  - rewrite (bool_decide_eq_false_2 _ Hh), (bool_decide_eq_true_2 _ Hd). cbn.
    symmetry. apply bool_decide_eq_false_2. by intros [?|?].
  - rewrite (bool_decide_eq_false_2 _ Hh), (bool_decide_eq_false_2 _ Hd). cbn.
    symmetry. apply bool_decide_eq_true_2. by right.
Qed.

(** X29. In the list of [get_cards], the counter of a card is 0 when, at
    the time of its turn, more than 24 hours have passed since its last view
    or the day of the month is another one, and the stored counter
    otherwise. *)
Theorem get_cards_counters user d :
  user ∈ (Auth.username <$> Cards.users d) →
  ∃ vs, (get_cards user d).1 = inr vs ∧
    Cards.View.counter <$> vs =
      imap (fun i c =>
              if bool_decide ((hours_between (clock i) (Cards.Doc.viewed c) > 24)%Z ∨
                              day (clock i) ≠ day (Cards.Doc.viewed c))
              then Some 0%Z else Cards.Doc.counter c)
           (sort_date_descending
              (filter (fun c => Cards.Doc.is_deleted c = false ∧ Cards.Doc.user c = user)
                 (Cards.cards d))).
Proof.
  intros Hu. rewrite (get_cards_known _ _ Hu). cbn.
  eexists. split; [reflexivity|]. rewrite view_cards_views, fmap_imap.
  apply imap_ext. intros i c _. cbn. rewrite <- rolls_over_spec.
  by destruct (rolls_over (clock i) c).
Qed.

(** X30. When no listed card rolls over at the time of its turn,
    [get_cards] leaves the statistics as they were. *)
Theorem get_cards_without_rollover user d :
  (∀ i c, cursor_of user d !! i = Some c → rolls_over (clock i) c = false) →
  Cards.stats (get_cards user d).2 = Cards.stats d.
Proof.
  intros Hno. unfold Cards.get_cards.
  destruct (Cards.unknown_user user d); [done|].
  pose proof (view_cards_stats 0 (cursor_of user d) d Hno) as Hstats.
  by destruct (view_cards 0 (cursor_of user d) d).
Qed.

End GetCardsFacts.

Lemma get_cards_lists_own_cards_witness :
  ∃ vs,
    (Cards.get_cards Fixture.str Fixture.hours_between Fixture.day
       Fixture.days_between Fixture.date_string Fixture.plus_days
       (fun l => l) (fun _ => 30%Z) "Nikita" Fixture.db).1 = inr vs ∧
    Cards.View.id <$> vs = ["00000000000000000000000a"].
Proof.
  destruct (get_cards_lists_own_cards Fixture.str Fixture.hours_between Fixture.day
              Fixture.days_between Fixture.date_string Fixture.plus_days
              (fun l => l) (fun _ => 30%Z) "Nikita" Fixture.db) as (vs & Hvs & _).
  - apply (bool_decide_unpack _). by vm_compute.
  - done.
  - exists vs. split; [done|]. vm_compute in Hvs. by injection Hvs as <-.
Defined.

Lemma delete_card_then_get_cards_witness :
  (Cards.get_cards Fixture.str Fixture.hours_between Fixture.day
     Fixture.days_between Fixture.date_string Fixture.plus_days
     (fun l => l) (fun _ => 30%Z) "Nikita"
     (Cards.delete_card Fixture.ObjectId "00000000000000000000000a" "Nikita"
        Fixture.db).2).1 = inr [] ∧
  ∀ v : Cards.View.t, v ∈ [] → Cards.View.id v ≠ "00000000000000000000000a".
Proof.
  split; [reflexivity|].
  apply (delete_card_then_get_cards Fixture.ObjectId Fixture.str Fixture.hours_between
           Fixture.day Fixture.days_between Fixture.date_string Fixture.plus_days
           (fun l => l) (fun _ => 30%Z)
           "00000000000000000000000a" 10%N "Nikita" Fixture.db).
  - apply (bool_decide_unpack _). by vm_compute.
  - reflexivity.
  - rewrite <- Forall_forall. apply (bool_decide_unpack _). by vm_compute.
  - apply (bool_decide_unpack _). by vm_compute.
  - done.
  - reflexivity.
Defined.

(** The card was last viewed at hour 20 of day 0.  At hour 30, ten hours
    later and on the next day, its counter is returned as 0; at hour 22 of
    the same day the stored counter 3 is returned. *)
Lemma get_cards_counters_witness :
  (∃ vs,
     (Cards.get_cards Fixture.str Fixture.hours_between Fixture.day
        Fixture.days_between Fixture.date_string Fixture.plus_days
        (fun l => l) (fun _ => 30%Z) "Nikita" Fixture.viewed_late).1 = inr vs ∧
     Cards.View.counter <$> vs = [Some 0%Z]) ∧
  (∃ vs,
     (Cards.get_cards Fixture.str Fixture.hours_between Fixture.day
        Fixture.days_between Fixture.date_string Fixture.plus_days
        (fun l => l) (fun _ => 22%Z) "Nikita" Fixture.viewed_late).1 = inr vs ∧
     Cards.View.counter <$> vs = [Some 3%Z]).
Proof.
  split.
  - destruct (get_cards_counters Fixture.str Fixture.hours_between Fixture.day
                Fixture.days_between Fixture.date_string Fixture.plus_days
                (fun l => l) (fun _ => 30%Z) "Nikita" Fixture.viewed_late)
      as (vs & Hvs & Hcounters).
    + apply (bool_decide_unpack _). by vm_compute.
    + exists vs. split; [done|]. rewrite Hcounters. reflexivity.
  - destruct (get_cards_counters Fixture.str Fixture.hours_between Fixture.day
                Fixture.days_between Fixture.date_string Fixture.plus_days
                (fun l => l) (fun _ => 22%Z) "Nikita" Fixture.viewed_late)
      as (vs & Hvs & Hcounters).
    + apply (bool_decide_unpack _). by vm_compute.
    + exists vs. split; [done|]. rewrite Hcounters. reflexivity.
Defined.

Lemma get_cards_without_rollover_witness :
  Cards.stats
    (Cards.get_cards Fixture.str Fixture.hours_between Fixture.day
       Fixture.days_between Fixture.date_string Fixture.plus_days
       (fun l => l) (fun _ => 5%Z) "Nikita" Fixture.db).2 =
  Cards.stats Fixture.db.
Proof.
  apply get_cards_without_rollover.
  intros [|i] c Hi; [|done]. by injection Hi as <-.
Defined.

(** A listing two and a half days after the last view: the counter 3 of
    the card goes to the statistics under the date of that view, the day in
    between gets the counter 0, and the card is returned and stored with the
    counter 0. *)
Example get_cards_rollover_sample :
  Cards.get_cards Fixture.str Fixture.hours_between Fixture.day
    Fixture.days_between Fixture.date_string Fixture.plus_days
    (fun l => l) (fun _ => 60%Z) "Nikita"
    {| Cards.users := [Fixture.nikita];
       Cards.cards := [Fixture.card 10%N "Nikita"];
       Cards.stats :=
         [ [ ("_id", Cards.VOid 77%N);
             ("card", Cards.VStr "00000000000000000000000a") ] ] |} =
  (inr [ {| Cards.View.id := "00000000000000000000000a";
            Cards.View.title := Some "word"; Cards.View.date := 1668698229%Z;
            Cards.View.counter := Some 0%Z; Cards.View.user := "Nikita" |} ],
   {| Cards.users := [Fixture.nikita];
      Cards.cards :=
        [ {| Cards.Doc._id := 10%N; Cards.Doc.title := Some "word";
             Cards.Doc.date := 1668698229%Z; Cards.Doc.counter := Some 0%Z;
             Cards.Doc.user := "Nikita"; Cards.Doc.is_deleted := false;
             Cards.Doc.viewed := 60%Z |} ];
      Cards.stats :=
        [ [ ("_id", Cards.VOid 77%N);
            ("card", Cards.VStr "00000000000000000000000a");
            ("2022-11-17", Cards.VInt 3%Z); ("2022-11-18", Cards.VInt 0%Z) ] ] |}).
Proof. reflexivity. Qed.
